(** * Race control: timer, offline queue, REST handlers and service worker

    A shallow embedding of the race-control application, followed by the
    properties proved of it.

    Definitions:
    - [Timer]: the [RaceTimer] class of public/timer.js;
    - [Offline]: the [OfflineStorage] class (local result queue and sync)
      and the page's event loop around it;
    - [Server]: the Express handlers of server.js over the SQLite schema
      of the setup script;
    - [Worker]: the service worker of public/sw.js;
    - [Sync]: one synchronisation round of the page against the server;
    - [Pages]: the paginated results table of the application;
    - [App]: recording, uploading and clearing in [RaceControlApp].

    Properties: [TimerSpec], [OfflineSpec], [ServerSpec], [SyncSpec],
    [WorkerSpec]; then [TimerMore], [OfflineMore], [ServerMore],
    [SyncMore], [WorkerMore], [PagesSpec], [AppSpec].

    Wall-clock readings ([Date.now()]) and network outcomes are inputs of
    the functions that consume them.  JavaScript numbers are integers here
    (runner numbers come from [parseInt], times from [Date.now()]), and
    race ids are the integers of the [id] column. *)

From Stdlib Require Import ZArith String Ascii.
From stdpp Require Import gmap strings list sorting pretty.

Open Scope Z_scope.

(** [a || b] on a nullable number: [null], [undefined], [NaN] and [0] are
    falsy. *)
Definition truthy (a : option Z) : bool :=
  match a with
  | Some n => negb (n =? 0)
  | None => false
  end.

Definition js_or (a : option Z) (b : Z) : Z :=
  match a with
  | Some n => if truthy a then n else b
  | None => b
  end.

(** ** RaceTimer (public/timer.js) *)
Module Timer.

(** The fields of a [RaceTimer] together with the browser's table of
    scheduled intervals: [setInterval] hands out a fresh handle and
    [clearInterval] retires it.  The text of the display element is
    presentation only and is left out. *)
Record RaceTimer := {
  startTime : option Z;
  timerInterval : option nat;
  isRunning : bool;
  scheduled : list nat;
  nextHandle : nat
}.

Definition new : RaceTimer :=
  {| startTime := None; timerInterval := None; isRunning := false;
     scheduled := []; nextHandle := 0%nat |}.

(** [start(startTime = null)], called when the clock reads [now];
    returns [this.startTime]. *)
Definition start (arg : option Z) (now : Z) (t : RaceTimer)
  : option Z * RaceTimer :=
  if isRunning t then (startTime t, t)
  else
    let st := js_or arg now in
    (Some st,
     {| startTime := Some st;
        timerInterval := Some (nextHandle t);
        isRunning := true;
        scheduled := nextHandle t :: scheduled t;
        nextHandle := S (nextHandle t) |}).

Definition clearInterval (h : option nat) (l : list nat) : list nat :=
  match h with
  | Some n => filter (λ k, k ≠ n) l
  | None => l
  end.

Definition stop (t : RaceTimer) : RaceTimer :=
  if isRunning t then
    {| startTime := startTime t;
       timerInterval := timerInterval t;
       isRunning := false;
       scheduled := clearInterval (timerInterval t) (scheduled t);
       nextHandle := nextHandle t |}
  else t.

Definition reset (t : RaceTimer) : RaceTimer :=
  let t' := stop t in
  {| startTime := None;
     timerInterval := timerInterval t';
     isRunning := isRunning t';
     scheduled := scheduled t';
     nextHandle := nextHandle t' |}.

Definition getElapsedTime (now : Z) (t : RaceTimer) : Z :=
  if truthy (startTime t) then now - default 0 (startTime t) else 0.

Definition recordFinish (now : Z) (t : RaceTimer) : option Z :=
  if isRunning t then Some now else None.

(** [num.toString().padStart(2, '0')]: the decimal digits, with zeros in
    front up to two characters. *)
Fixpoint repeat_char (c : ascii) (n : nat) : string :=
  match n with
  | O => ""
  | S n => String c (repeat_char c n)
  end.

Definition padStart (target : nat) (c : ascii) (s : string) : string :=
  repeat_char c (target - String.length s) +:+ s.

Definition padZero (num : Z) : string := padStart 2 "0" (pretty num).

(** Whole seconds, hours, minutes and seconds of a time in milliseconds:
    [Math.floor] of a quotient rounds down, [%] keeps the sign of the
    dividend. *)
Definition totalSeconds (timeInMs : Z) : Z := timeInMs / 1000.
Definition hours (timeInMs : Z) : Z := totalSeconds timeInMs / 3600.
Definition minutes (timeInMs : Z) : Z :=
  Z.rem (totalSeconds timeInMs) 3600 / 60.
Definition seconds (timeInMs : Z) : Z := Z.rem (totalSeconds timeInMs) 60.

Definition formatTime (timeInMs : Z) : string :=
  padZero (hours timeInMs) +:+ ":" +:+ padZero (minutes timeInMs)
  +:+ ":" +:+ padZero (seconds timeInMs).

(** [String.prototype.trim] over the ASCII white space. *)
Definition is_space (c : ascii) : bool :=
  let n := Ascii.nat_of_ascii c in
  ((9 <=? n)%nat && (n <=? 13)%nat) || (n =? 32)%nat.

Fixpoint trimStart (s : string) : string :=
  match s with
  | String c rest => if is_space c then trimStart rest else s
  | EmptyString => EmptyString
  end.

Fixpoint trimEnd (s : string) : string :=
  match s with
  | String c rest =>
      match trimEnd rest with
      | EmptyString => if is_space c then EmptyString else String c EmptyString
      | kept => String c kept
      end
  | EmptyString => EmptyString
  end.

Definition trim (s : string) : string := trimEnd (trimStart s).

Definition formatTimeVerbose (timeInMs : Z) : string :=
  let result := "" in
  let result :=
    if 0 <? hours timeInMs
    then result +:+ pretty (hours timeInMs) +:+ "h " else result in
  let result :=
    if (0 <? minutes timeInMs) || (0 <? hours timeInMs)
    then result +:+ pretty (minutes timeInMs) +:+ "m " else result in
  let result := result +:+ pretty (seconds timeInMs) +:+ "s" in
  trim result.

(** [formatTimeDisplay] of the application; [None] is [null] or
    [undefined]. *)
Definition formatTimeDisplay (timeInMs : option Z) : string :=
  match timeInMs with
  | None => "N/A"
  | Some t =>
      if 0 <? hours t then
        pretty (hours t) +:+ "h " +:+ pretty (minutes t) +:+ "m "
        +:+ pretty (seconds t) +:+ "s"
      else if 0 <? minutes t then
        pretty (minutes t) +:+ "m " +:+ pretty (seconds t) +:+ "s"
      else pretty (seconds t) +:+ "s"
  end.

(** The calls a page makes on its timer. *)
Inductive Call :=
| Start (arg : option Z) (now : Z)
| Stop
| Reset.

Definition call (c : Call) (t : RaceTimer) : RaceTimer :=
  match c with
  | Start arg now => (start arg now t).2
  | Stop => stop t
  | Reset => reset t
  end.

Definition calls (cs : list Call) (t : RaceTimer) : RaceTimer :=
  foldl (λ t c, call c t) t cs.

Definition running_example : RaceTimer :=
  (start (Some 1700000000000) 5 new).2.

End Timer.

(** ** OfflineStorage (public/timer.js): local result queue and sync *)
Module Offline.

(** A locally recorded finish, as [recordFinish] of the application hands
    it to [storeResult]. *)
Record Result := {
  raceId : Z;
  runnerNumber : Z;
  finishTime : Z
}.

(** The blob kept under [storageKey]: [{ raceId, results }]. *)
Record StoredData := {
  data_raceId : Z;
  data_results : list Result
}.

(** What [localStorage] holds: the device token and the queue blob.  A
    blob stands for its [JSON.stringify] text, which [JSON.parse] reads
    back to the same record. *)
Inductive Item :=
| Token (s : string)
| Blob (d : StoredData).

Definition storageKey : string := "race-control-data".
Definition deviceKey : string := "device-id".

(** The [OfflineStorage] object with the browser state it touches: the
    origin's [localStorage], whether the sync badge carries the [hidden]
    class, and the notifications shown so far (latest first). *)
Record OfflineStorage := {
  localStorage : gmap string Item;
  deviceId : string;
  isOnline : bool;
  syncStatusHidden : bool;
  notifications : list string
}.

Definition showNotification (msg : string) (c : OfflineStorage)
  : OfflineStorage :=
  {| localStorage := localStorage c;
     deviceId := deviceId c;
     isOnline := isOnline c;
     syncStatusHidden := syncStatusHidden c;
     notifications := msg :: notifications c |}.

Definition getStoredData (c : OfflineStorage) : option StoredData :=
  match localStorage c !! storageKey with
  | Some (Blob d) => Some d
  | _ => None
  end.

(** [data && data.results && data.results.length > 0] *)
Definition hasUnsyncedData (c : OfflineStorage) : bool :=
  match getStoredData c with
  | Some d => bool_decide (data_results d ≠ [])
  | None => false
  end.

Definition checkUnsyncedData (c : OfflineStorage) : OfflineStorage :=
  {| localStorage := localStorage c;
     deviceId := deviceId c;
     isOnline := isOnline c;
     syncStatusHidden := negb (hasUnsyncedData c && isOnline c);
     notifications := notifications c |}.

Definition setItem (k : string) (v : Item) (c : OfflineStorage)
  : OfflineStorage :=
  {| localStorage := <[k := v]> (localStorage c);
     deviceId := deviceId c;
     isOnline := isOnline c;
     syncStatusHidden := syncStatusHidden c;
     notifications := notifications c |}.

Definition removeItem (k : string) (c : OfflineStorage) : OfflineStorage :=
  {| localStorage := delete k (localStorage c);
     deviceId := deviceId c;
     isOnline := isOnline c;
     syncStatusHidden := syncStatusHidden c;
     notifications := notifications c |}.

(** The constructor: reuse the persisted device token or persist the
    freshly generated one, read [navigator.onLine], refresh the badge. *)
Definition construct (ls : gmap string Item) (generated : string)
    (online : bool) : OfflineStorage :=
  let '(dev, ls') :=
    match ls !! deviceKey with
    | Some (Token s) => if bool_decide (s = "") then (generated, <[deviceKey := Token generated]> ls)
                        else (s, ls)
    | _ => (generated, <[deviceKey := Token generated]> ls)
    end in
  checkUnsyncedData
    {| localStorage := ls'; deviceId := dev; isOnline := online;
       syncStatusHidden := true; notifications := [] |}.

Definition handleConnectionChange (online : bool) (c : OfflineStorage)
  : OfflineStorage :=
  let c1 :=
    checkUnsyncedData
      {| localStorage := localStorage c;
         deviceId := deviceId c;
         isOnline := online;
         syncStatusHidden := syncStatusHidden c;
         notifications := notifications c |} in
  if online then showNotification "You are back online" c1 else c1.

Definition storeRaceData (d : StoredData) (c : OfflineStorage)
  : OfflineStorage :=
  checkUnsyncedData (setItem storageKey (Blob d) c).

(** [storeResult(result)]: one [setItem] of the whole blob. *)
Definition storeResult (result : Result) (c : OfflineStorage)
  : OfflineStorage :=
  let data :=
    default {| data_raceId := raceId result; data_results := [] |}
            (getStoredData c) in
  let data :=
    if bool_decide (data_raceId data ≠ raceId result)
    then {| data_raceId := raceId result; data_results := [] |}
    else data in
  storeRaceData
    {| data_raceId := data_raceId data;
       data_results := data_results data ++ [result] |} c.

Definition clearResults (c : OfflineStorage) : OfflineStorage :=
  checkUnsyncedData (removeItem storageKey c).

(** The request of [syncResults]:
    [POST /api/races/${data.raceId}/results] with body
    [{ results: data.results, deviceId }]. *)
Record Upload := {
  up_raceId : Z;
  up_results : list Result;
  up_deviceId : string
}.

(** How the awaited [fetch] settles: a response with its status, or a
    rejection. *)
Inductive FetchOutcome :=
| Responded (status : Z)
| Rejected.

(** [response.ok] *)
Definition ok (status : Z) : bool := (200 <=? status) && (status <=? 299).

(** [syncResults] runs up to its [await] and either returns at once or
    suspends with a request in flight. *)
Inductive Suspension :=
| Returned (b : bool)
| Awaiting (u : Upload).

Definition syncResults_begin (c : OfflineStorage)
  : OfflineStorage * Suspension :=
  if negb (isOnline c) then
    (showNotification "Cannot sync while offline" c, Returned false)
  else
    match getStoredData c with
    | None => (showNotification "No data to synchronize" c, Returned false)
    | Some data =>
        match data_results data with
        | [] => (showNotification "No data to synchronize" c, Returned false)
        | _ :: _ =>
            (c, Awaiting {| up_raceId := data_raceId data;
                            up_results := data_results data;
                            up_deviceId := deviceId c |})
        end
    end.

(** The rest of [syncResults], run when the [fetch] has settled. *)
Definition syncResults_resume (o : FetchOutcome) (c : OfflineStorage)
  : OfflineStorage * bool :=
  match o with
  | Responded status =>
      if ok status then
        (showNotification "Results synchronized successfully" (clearResults c),
         true)
      else (showNotification "Failed to synchronize results" c, false)
  | Rejected => (showNotification "Failed to synchronize results" c, false)
  end.

(** The page's event loop as far as the queue is concerned: handlers run
    to completion; an [await] parks the continuation until its request
    settles.  [inflight] lists the uploads issued and not yet settled. *)
Record Page := {
  storage : OfflineStorage;
  inflight : list Upload
}.

Inductive Event :=
| RecordFinish (r : Result)
| SyncNow
| Settles (k : nat) (o : FetchOutcome)
| Connection (online : bool)
| Clear.

Definition step (e : Event) (p : Page) : Page :=
  match e with
  | RecordFinish r =>
      {| storage := storeResult r (storage p); inflight := inflight p |}
  | SyncNow =>
      match syncResults_begin (storage p) with
      | (c, Returned _) => {| storage := c; inflight := inflight p |}
      | (c, Awaiting u) => {| storage := c; inflight := inflight p ++ [u] |}
      end
  | Settles k o =>
      match inflight p !! k with
      | Some _ =>
          {| storage := (syncResults_resume o (storage p)).1;
             inflight := delete k (inflight p) |}
      | None => p
      end
  | Connection online =>
      {| storage := handleConnectionChange online (storage p);
         inflight := inflight p |}
  | Clear =>
      {| storage := clearResults (storage p); inflight := inflight p |}
  end.

Definition run (es : list Event) (p : Page) : Page :=
  foldl (λ p e, step e p) p es.

(** No two uploads in flight carry the same batch. *)
Definition distinct_batches (p : Page) : Prop :=
  NoDup (up_results <$> inflight p).

(** Every queued entry carries the raceId of the record. *)
Definition scoped (c : OfflineStorage) : Prop :=
  ∀ d, getStoredData c = Some d →
       Forall (λ e, raceId e = data_raceId d) (data_results d).

(** *** Sample states *)

Definition device : OfflineStorage := construct ∅ "device_k3x9q" true.

Definition finish_101 : Result :=
  {| raceId := 1; runnerNumber := 101; finishTime := 1700000125000 |}.

Definition finish_7 : Result :=
  {| raceId := 2; runnerNumber := 7; finishTime := 1700000300000 |}.

(** The device after recording runner 101 in race 1. *)
Definition queued : OfflineStorage := storeResult finish_101 device.

Definition queued_page : Page := {| storage := queued; inflight := [] |}.

End Offline.

(** ** The REST handlers (server.js) over the SQLite schema *)
Module Server.

(** The three values the handlers write into [races.status]. *)
Inductive Status := pending | active | completed.

Definition status_text (s : Status) : string :=
  match s with
  | pending => "pending"
  | active => "active"
  | completed => "completed"
  end.

(** Rows of the two tables, as the setup script declares them. *)
Record Race := {
  id : Z;
  name : string;
  date : string;
  startTime : option Z;
  status : Status
}.

Record ResultRow := {
  row_id : Z;
  row_raceId : Z;
  row_runnerNumber : Z;
  row_finishTime : Z;
  row_uploadedBy : option string;
  row_uploadedAt : Z
}.

(** The tables with their AUTOINCREMENT counters (the largest rowid ever
    handed out, which SQLite keeps in [sqlite_sequence]). *)
Record Tables := {
  races : list Race;
  results : list ResultRow;
  races_seq : Z;
  results_seq : Z
}.

(** The single connection [db] every handler uses.  Outside a
    transaction each statement commits at once; after BEGIN the
    statements work on [transaction] until COMMIT or ROLLBACK.  Reads on
    the connection see its own uncommitted work.  The schema's FOREIGN KEY
    clause is not enforced: neither script turns [PRAGMA foreign_keys]
    on.  Failures of the storage engine itself (I/O) are not modelled, so
    of the branches guarded by [err] only those decided by the
    transaction state remain. *)
Record Database := {
  committed : Tables;
  transaction : option Tables
}.

Definition view (db : Database) : Tables :=
  default (committed db) (transaction db).

Definition write (f : Tables → Tables) (db : Database) : Database :=
  match transaction db with
  | Some t => {| committed := committed db; transaction := Some (f t) |}
  | None => {| committed := f (committed db); transaction := None |}
  end.

(** BEGIN.  Inside a transaction SQLite refuses it (cannot start a
    transaction within a transaction): [None]. *)
Definition begin_transaction (db : Database) : option Database :=
  match transaction db with
  | Some _ => None
  | None => Some {| committed := committed db;
                    transaction := Some (committed db) |}
  end.

(** COMMIT, with whether it succeeded. *)
Definition commit (db : Database) : Database * bool :=
  match transaction db with
  | Some t => ({| committed := t; transaction := None |}, true)
  | None => (db, false)
  end.

Definition rollback (db : Database) : Database :=
  {| committed := committed db; transaction := None |}.

(** *** Statements *)

(** [INSERT INTO races (name, date, status) VALUES (?, ?, 'pending')] *)
Definition insert_race (n d : string) (t : Tables) : Tables :=
  {| races := races t ++
       [{| id := races_seq t + 1; name := n; date := d;
           startTime := None; status := pending |}];
     results := results t;
     races_seq := races_seq t + 1;
     results_seq := results_seq t |}.

Definition update_races (raceId : Z) (f : Race → Race) (t : Tables)
  : Tables :=
  {| races := (λ r, if bool_decide (id r = raceId) then f r else r)
                <$> races t;
     results := results t;
     races_seq := races_seq t;
     results_seq := results_seq t |}.

(** [UPDATE races SET startTime = ?, status = 'active' WHERE id = ?] *)
Definition set_started (now : Z) (r : Race) : Race :=
  {| id := id r; name := name r; date := date r;
     startTime := Some now; status := active |}.

(** [UPDATE races SET status = 'completed' WHERE id = ?] *)
Definition set_completed (r : Race) : Race :=
  {| id := id r; name := name r; date := date r;
     startTime := startTime r; status := completed |}.

(** The rows that [WHERE id = ?] selects, and [this.changes] of an
    UPDATE or DELETE on them. *)
Definition matching (raceId : Z) (l : list Race) : list Race :=
  filter (λ r, id r = raceId) l.

Definition changes (raceId : Z) (t : Tables) : nat :=
  length (matching raceId (races t)).

(** [DELETE FROM results WHERE raceId = ?] *)
Definition delete_results (raceId : Z) (t : Tables) : Tables :=
  {| races := races t;
     results := filter (λ r, row_raceId r ≠ raceId) (results t);
     races_seq := races_seq t;
     results_seq := results_seq t |}.

(** [DELETE FROM races WHERE id = ?] *)
Definition delete_race (raceId : Z) (t : Tables) : Tables :=
  {| races := filter (λ r, id r ≠ raceId) (races t);
     results := results t;
     races_seq := races_seq t;
     results_seq := results_seq t |}.

(** [INSERT INTO results (raceId, runnerNumber, finishTime, uploadedBy,
    uploadedAt) VALUES (?, ?, ?, ?, ?)] *)
Definition insert_result (raceId runner finish : Z)
    (device : option string) (at_ : Z) (t : Tables) : Tables :=
  {| races := races t;
     results := results t ++
       [{| row_id := results_seq t + 1; row_raceId := raceId;
           row_runnerNumber := runner; row_finishTime := finish;
           row_uploadedBy := device; row_uploadedAt := at_ |}];
     races_seq := races_seq t;
     results_seq := results_seq t + 1 |}.

Definition find_race (raceId : Z) (t : Tables) : option Race :=
  head (matching raceId (races t)).

(** *** Requests and responses *)

(** One element of [req.body.results]: an object whose two fields are
    numbers when present. *)
Record Entry := {
  entry_runnerNumber : option Z;
  entry_finishTime : option Z
}.

(** [req.body.results]: absent, present but not an array, or an array. *)
Inductive ResultsField :=
| Missing
| NotArray
| Array (l : list Entry).

Inductive Req :=
| GetRaces
| DeleteRace (raceId : Z)
| PostRace (name date : option string)
| PutStart (raceId : Z) (now : Z)
| PutEnd (raceId : Z)
| PostResults (raceId : Z) (results : ResultsField)
              (deviceId : option string) (now : Z)
| GetResults (raceId : Z)
| GetRace (raceId : Z).

Record Processed := {
  p_id : Z;
  p_runnerNumber : Z;
  p_finishTime : Z;
  p_raceTime : option Z;
  p_uploadedBy : option string;
  p_uploadedAt : Z
}.

Inductive Payload :=
| Error (msg : string)
| RaceList (l : list Race)
| RaceRow (r : Race)
| Created (id : Z) (name date : string)
| Started (id startTime : Z)
| Ended (id : Z)
| Saved (n : nat)
| Deleted
| ResultList (l : list Processed).

(** What a request comes to.  Either the handler answers and the server
    goes on, or the process exits: both handlers that open a transaction
    call [db.run('BEGIN TRANSACTION')] with no callback, and an error of
    a statement that has no callback is emitted as an [error] event that
    nothing in the server listens to, which ends the Node process.
    [sent] is the answer written before that, if any. *)
Inductive Res :=
| respond (code : Z) (payload : Payload)
| exits (sent : option (Z * Payload)).

(** The status the client reads, if an answer reaches it. *)
Definition code (r : Res) : option Z :=
  match r with
  | respond c _ => Some c
  | exits sent => fst <$> sent
  end.

Definition nonempty (s : option string) : option string :=
  match s with
  | Some "" => None
  | _ => s
  end.

(** [!(!runnerNumber || !finishTime)] *)
Definition entry_ok (e : Entry) : bool :=
  truthy (entry_runnerNumber e) && truthy (entry_finishTime e).

(** The [forEach] of the results handler: each valid entry queues its
    INSERT; the first invalid one sets [hasError] and answers 400, after
    which every further iteration returns at once.  Returns the
    connection and [hasError]. *)
Fixpoint insert_each (raceId : Z) (device : option string) (at_ : Z)
    (entries : list Entry) (db : Database) : Database * bool :=
  match entries with
  | [] => (db, false)
  | e :: rest =>
      if entry_ok e then
        insert_each raceId device at_ rest
          (write (insert_result raceId
                    (default 0 (entry_runnerNumber e))
                    (default 0 (entry_finishTime e)) device at_) db)
      else (db, true)
  end.

(** [row.raceStartTime ? row.finishTime - row.raceStartTime : null] *)
Definition raceTime (raceStartTime : option Z) (finish : Z) : option Z :=
  if truthy raceStartTime then Some (finish - default 0 raceStartTime)
  else None.

Definition process (raceStartTime : option Z) (row : ResultRow)
  : Processed :=
  {| p_id := row_id row;
     p_runnerNumber := row_runnerNumber row;
     p_finishTime := row_finishTime row;
     p_raceTime := raceTime raceStartTime (row_finishTime row);
     p_uploadedBy := row_uploadedBy row;
     p_uploadedAt := row_uploadedAt row |}.

(** [ORDER BY r.finishTime ASC] and [ORDER BY date DESC] (text compares
    bytewise). *)
Definition by_finishTime (a b : ResultRow) : Prop :=
  row_finishTime a ≤ row_finishTime b.

Definition by_date_desc (a b : Race) : Prop :=
  Is_true (String.leb (date b) (date a)).

#[export] Instance by_finishTime_dec : RelDecision by_finishTime :=
  λ a b, decide (row_finishTime a ≤ row_finishTime b).

#[export] Instance by_date_desc_dec : RelDecision by_date_desc :=
  λ a b, decide (Is_true (String.leb (date b) (date a))).

(** The SELECT of the results handler: the rows of the race by ascending
    [finishTime], each paired with the scalar subquery
    [(SELECT startTime FROM races WHERE id = ?)]. *)
Definition select_results (raceId : Z) (t : Tables)
  : option Z * list ResultRow :=
  (find_race raceId t ≫= startTime,
   merge_sort by_finishTime
     (filter (λ r, row_raceId r = raceId) (results t))).

(** [SELECT * FROM races ORDER BY date DESC] *)
Definition select_races (t : Tables) : list Race :=
  merge_sort by_date_desc (races t).

(** Each handler, run to the end of the statements it queues; requests
    are taken one at a time.  When the process exits, the first component
    is the database as the file keeps it, without the transaction that
    was pending: what a server started again on the file would open.
    Nothing in the sources starts one; the sequences below, which go on
    from that state, are about the requests such a server would get. *)
Definition handle (rq : Req) (db : Database) : Database * Res :=
  match rq with
  | GetRaces => (db, respond 200 (RaceList (select_races (view db))))
  | DeleteRace raceId =>
      match begin_transaction db with
      | None => (rollback db, exits None)
      | Some db1 =>
          let db2 := write (delete_results raceId) db1 in
          let n := changes raceId (view db2) in
          let db3 := write (delete_race raceId) db2 in
          if bool_decide (n = 0%nat) then
            (rollback db3, respond 404 (Error "Race not found"))
          else
            match commit db3 with
            | (db4, true) => (db4, respond 200 Deleted)
            | (db4, false) => (db4, respond 500 (Error "cannot commit"))
            end
      end
  | PostRace n d =>
      match nonempty n, nonempty d with
      | Some n, Some d =>
          (write (insert_race n d) db,
           respond 200 (Created (races_seq (view db) + 1) n d))
      | _, _ => (db, respond 400 (Error "Name and date are required"))
      end
  | PutStart raceId now =>
      let n := changes raceId (view db) in
      let db1 := write (update_races raceId (set_started now)) db in
      if bool_decide (n = 0%nat) then
        (db1, respond 404 (Error "Race not found"))
      else (db1, respond 200 (Started raceId now))
  | PutEnd raceId =>
      let n := changes raceId (view db) in
      let db1 := write (update_races raceId set_completed) db in
      if bool_decide (n = 0%nat) then
        (db1, respond 404 (Error "Race not found"))
      else (db1, respond 200 (Ended raceId))
  | PostResults raceId body device now =>
      match body with
      | Array entries =>
          match begin_transaction db with
          | None =>
              (rollback db,
               exits (if forallb entry_ok entries then None
                      else Some (400, Error
                 "Runner number and finish time are required for each result")))
          | Some db1 =>
              match insert_each raceId device now entries db1 with
              | (db2, true) =>
                  (db2, respond 400 (Error
                 "Runner number and finish time are required for each result"))
              | (db2, false) =>
                  match commit db2 with
                  | (db3, true) => (db3, respond 200 (Saved (length entries)))
                  | (db3, false) => (db3, respond 500 (Error "cannot commit"))
                  end
              end
          end
      | _ => (db, respond 400 (Error "Results array is required"))
      end
  | GetResults raceId =>
      let '(start, rows) := select_results raceId (view db) in
      (db, respond 200 (ResultList (process start <$> rows)))
  | GetRace raceId =>
      match find_race raceId (view db) with
      | Some row => (db, respond 200 (RaceRow row))
      | None => (db, respond 404 (Error "Race not found"))
      end
  end.

(** *** The handlers on a connection with no pending transaction *)

(** The tables after the INSERTs of a batch with no invalid entry. *)
Fixpoint insert_all (raceId : Z) (device : option string) (at_ : Z)
    (entries : list Entry) (t : Tables) : Tables :=
  match entries with
  | [] => t
  | e :: rest =>
      insert_all raceId device at_ rest
        (insert_result raceId (default 0 (entry_runnerNumber e))
           (default 0 (entry_finishTime e)) device at_ t)
  end.

(** What a request with valid entries makes of the tables. *)
Definition tables_after (rq : Req) (t : Tables) : Tables :=
  match rq with
  | DeleteRace i =>
      if bool_decide (changes i t = 0%nat) then t
      else delete_race i (delete_results i t)
  | PostRace n d =>
      match nonempty n, nonempty d with
      | Some n, Some d => insert_race n d t
      | _, _ => t
      end
  | PutStart i now => update_races i (set_started now) t
  | PutEnd i => update_races i set_completed t
  | PostResults i (Array l) device now => insert_all i device now l t
  | _ => t
  end.

(** *** Observations over a sequence of requests *)

(** What [GET /api/races/:id] shows of a race. *)
Definition status_of (raceId : Z) (db : Database) : option Status :=
  status <$> find_race raceId (view db).

Definition startTime_of (raceId : Z) (db : Database) : option Z :=
  find_race raceId (view db) ≫= startTime.

(** The statuses of a race seen before the first request and after each
    one, for as long as the race has a row. *)
Fixpoint observed (raceId : Z) (rqs : list Req) (db : Database)
  : list Status :=
  option_list (status_of raceId db) ++
  match rqs with
  | [] => []
  | rq :: rest => observed raceId rest (handle rq db).1
  end.

Definition rank (s : Status) : nat :=
  match s with
  | pending => 0
  | active => 1
  | completed => 2
  end.

(** A status sequence that never steps backwards along
    (pending, active, completed). *)
Fixpoint no_regression (l : list Status) : bool :=
  match l with
  | a :: (b :: _) as rest => (rank a <=? rank b)%nat && no_regression rest
  | _ => true
  end.

(** The connection after a sequence of requests. *)
Definition after (rqs : list Req) (db : Database) : Database :=
  foldl (λ db rq, (handle rq db).1) db rqs.

(** How many requests of the sequence write the race's [startTime]: the
    start requests for it that find its row. *)
Definition writes_startTime (raceId : Z) (rq : Req) (db : Database)
  : bool :=
  match rq with
  | PutStart i _ =>
      bool_decide (i = raceId) &&
      negb (bool_decide (changes raceId (view db) = 0%nat))
  | _ => false
  end.

Fixpoint assignments (raceId : Z) (rqs : list Req) (db : Database)
  : nat :=
  match rqs with
  | [] => 0
  | rq :: rest =>
      ((if writes_startTime raceId rq db then 1 else 0)
       + assignments raceId rest (handle rq db).1)%nat
  end.

(** A results body none of whose entries fails the check of the loop. *)
Definition valid_entries (body : ResultsField) : bool :=
  match body with
  | Array l => forallb entry_ok l
  | _ => true
  end.

Definition valid_request (rq : Req) : bool :=
  match rq with
  | PostResults _ body _ _ => valid_entries body
  | _ => true
  end.

(** A request sequence that asks to start the race only while it is
    pending (or has no row), and whose results batches are all valid. *)
Definition allowed (raceId : Z) (rq : Req) (db : Database) : bool :=
  match rq with
  | PutStart i _ =>
      if bool_decide (i = raceId) then
        match status_of raceId db with
        | Some pending | None => true
        | _ => false
        end
      else true
  | PostResults _ body _ _ => valid_entries body
  | _ => true
  end.

Fixpoint disciplined (raceId : Z) (rqs : list Req) (db : Database)
  : bool :=
  match rqs with
  | [] => true
  | rq :: rest =>
      allowed raceId rq db && disciplined raceId rest (handle rq db).1
  end.

(** A connection with no transaction pending whose race ids are within
    the AUTOINCREMENT counter. *)
Definition settled (db : Database) : Prop :=
  transaction db = None ∧
  Forall (λ r, id r ≤ races_seq (committed db)) (races (committed db)).

(** *** Sample states *)

Definition empty_tables : Tables :=
  {| races := []; results := []; races_seq := 0; results_seq := 0 |}.

Definition fresh : Database :=
  {| committed := empty_tables; transaction := None |}.

(** The database after [POST /api/races {name: "5K Fun Run",
    date: "2024-05-01"}]. *)
Definition one_race : Database :=
  (handle (PostRace (Some "5K Fun Run") (Some "2024-05-01")) fresh).1.

(** A results batch whose second entry has no [finishTime]. *)
Definition broken_batch : ResultsField :=
  Array [ {| entry_runnerNumber := Some 101;
             entry_finishTime := Some 1700000125000 |};
          {| entry_runnerNumber := Some 102; entry_finishTime := None |} ].

Definition single_batch : ResultsField :=
  Array [ {| entry_runnerNumber := Some 101;
             entry_finishTime := Some 1700000125000 |} ].

(** Start, end, and start again. *)
Definition restart : list Req :=
  [PutStart 1 1700000000000; PutEnd 1; PutStart 1 1700000500000].

(** The scenario of a race day: start, two uploads, end, read. *)
Definition race_day : list Req :=
  [PutStart 1 1700000000000;
   PostResults 1
     (Array [ {| entry_runnerNumber := Some 101;
                 entry_finishTime := Some 1700000125000 |};
              {| entry_runnerNumber := Some 102;
                 entry_finishTime := Some 1700000098000 |} ])
     (Some "device_k3x9q") 1700000200000;
   PutEnd 1;
   GetResults 1].

(** The database after a batch was uploaded for race 999, which has no
    row. *)
Definition orphaned : Database :=
  (handle (PostResults 999 single_batch (Some "device_k3x9q") 1700000200000)
     fresh).1.

End Server.

(** ** The service worker (public/sw.js) *)
Module Worker.

Definition CACHE_NAME : string := "race-control-v1".

Definition ASSETS_TO_CACHE : list string :=
  ["/"; "/index.html"; "/style.css"; "/app.js"; "/timer.js";
   "/offline.js"; "/manifest.json"].

Record Request := {
  url : string;
  method : string
}.

(** A response body: opaque content, or the JSON text of an object with
    string and boolean fields. *)
Inductive JsonValue :=
| JString (s : string)
| JBool (b : bool).

Inductive Body :=
| Content (s : string)
| Json (fields : list (string * JsonValue)).

Record Response := {
  status : Z;
  type : string;
  contentType : option string;
  body : Body
}.

(** [CacheStorage]: the named caches in creation order, each a map from
    URL to the stored response. *)
Abbreviation Cache := (gmap string Response).
Abbreviation CacheStorage := (list (string * gmap string Response)).

Definition keys (cs : CacheStorage) : list string := cs.*1.

Definition caches_delete (cacheName : string) (cs : CacheStorage)
  : CacheStorage :=
  filter (λ p, p.1 ≠ cacheName) cs.

Definition lookup_cache (cacheName : string) (cs : CacheStorage)
  : option Cache :=
  list_find (λ p, p.1 = cacheName) cs ≫= λ p, Some p.2.2.

(** [caches.open(name)] creates the cache when it does not exist. *)
Definition caches_open (cacheName : string) (cs : CacheStorage)
  : CacheStorage :=
  match lookup_cache cacheName cs with
  | Some _ => cs
  | None => cs ++ [(cacheName, ∅)]
  end.

(** [cache.put(request, response)] on the named cache; only GET requests
    can be stored. *)
Definition cache_put (cacheName : string) (rq : Request) (r : Response)
    (cs : CacheStorage) : CacheStorage :=
  if bool_decide (method rq = "GET") then
    (λ p, if bool_decide (p.1 = cacheName)
          then (p.1, <[url rq := r]> p.2) else p) <$> cs
  else cs.

(** [caches.match(request)]: the entry of the first cache, in creation
    order, that holds the request's URL; nothing for other methods than
    GET. *)
Fixpoint match_url (u : string) (cs : CacheStorage) : option Response :=
  match cs with
  | [] => None
  | (_, c) :: rest =>
      match c !! u with
      | Some r => Some r
      | None => match_url u rest
      end
  end.

Definition caches_match (rq : Request) (cs : CacheStorage)
  : option Response :=
  if bool_decide (method rq = "GET") then match_url (url rq) cs else None.

(** [s.includes(sub)] *)
Fixpoint includes (sub s : string) : bool :=
  String.prefix sub s ||
  match s with
  | EmptyString => false
  | String _ rest => includes sub rest
  end.

(** Install: [cache.addAll] fetches the manifest, whose paths resolve
    against the worker's origin, and stores it; when one asset cannot be
    fetched with a success status it rejects and stores nothing.
    [network] is what the network answers for a URL. *)
Definition fetched_ok (r : Response) : bool :=
  (200 <=? status r) && (status r <=? 299).

Definition fetch_asset (origin : string) (network : string → option Response)
    (asset : string) : option (string * Response) :=
  r ← network (origin +:+ asset);
  if fetched_ok r then Some (origin +:+ asset, r) else None.

Definition put_all (cacheName : string) (fetched : list (string * Response))
    (cs : CacheStorage) : CacheStorage :=
  foldl (λ cs p, cache_put cacheName {| url := p.1; method := "GET" |} p.2 cs)
        cs fetched.

Definition install (origin : string) (network : string → option Response)
    (cs : CacheStorage) : CacheStorage * bool :=
  let cs1 := caches_open CACHE_NAME cs in
  match mapM (fetch_asset origin network) ASSETS_TO_CACHE with
  | Some fetched => (put_all CACHE_NAME fetched cs1, true)
  | None => (cs1, false)
  end.

(** Activate: delete every cache whose name is not [CACHE_NAME]. *)
Definition activate (cs : CacheStorage) : CacheStorage :=
  foldl (λ cs cacheName, caches_delete cacheName cs) cs
        (filter (λ cacheName, cacheName ≠ CACHE_NAME) (keys cs)).

(** The response made up for a failed non-GET API request. *)
Definition offline_response : Response :=
  {| status := 503;
     type := "default";
     contentType := Some "application/json";
     body := Json [("error", JString "You are currently offline");
                   ("offline", JBool true)] |}.

(** What the fetch handler does with the event: leave it to the browser,
    or [respondWith] a response; [RespondWith None] is a promise that
    yields no response (the page then sees a network error). *)
Inductive Action :=
| PassThrough
| RespondWith (r : option Response).

(** The fetch handler.  [origin] is [self.location.origin]; [network] is
    how [fetch(event.request)] settles, [None] when it rejects. *)
Definition on_fetch (origin : string) (rq : Request)
    (network : option Response) (cs : CacheStorage)
  : CacheStorage * Action :=
  if negb (String.prefix origin (url rq)) then (cs, PassThrough)
  else if includes "/api/" (url rq) then
    match network with
    | Some r => (cs, RespondWith (Some r))
    | None =>
        if bool_decide (method rq = "GET")
        then (cs, RespondWith (caches_match rq cs))
        else (cs, RespondWith (Some offline_response))
    end
  else
    match caches_match rq cs with
    | Some r => (cs, RespondWith (Some r))
    | None =>
        match network with
        | None => (cs, RespondWith None)
        | Some r =>
            if bool_decide (status r ≠ 200) || bool_decide (type r ≠ "basic")
            then (cs, RespondWith (Some r))
            else (cache_put CACHE_NAME rq r (caches_open CACHE_NAME cs),
                  RespondWith (Some r))
        end
    end.

(** The worker's life as far as the caches are concerned. *)
Inductive Event :=
| Install (network : string → option Response)
| Activate
| Fetch (rq : Request) (network : option Response).

Definition step (origin : string) (e : Event) (cs : CacheStorage)
  : CacheStorage :=
  match e with
  | Install network => (install origin network cs).1
  | Activate => activate cs
  | Fetch rq network => (on_fetch origin rq network cs).1
  end.

Definition run (origin : string) (es : list Event) (cs : CacheStorage)
  : CacheStorage :=
  foldl (λ cs e, step origin e cs) cs es.

(** No cache holds an entry under a URL of the API class. *)
Definition api_free (cs : CacheStorage) : Prop :=
  Forall (λ p, ∀ u r, p.2 !! u = Some r → includes "/api/" u = false) cs.

(** The value of a field of a JSON body. *)
Definition json_field (k : string) (b : Body) : option JsonValue :=
  match b with
  | Json fields => snd <$> head (filter (λ p, p.1 = k) fields)
  | Content _ => None
  end.

(** *** Sample states *)

Definition origin : string := "http://localhost:8080".

Definition post_results : Request :=
  {| url := "http://localhost:8080/api/races/1/results"; method := "POST" |}.

Definition get_race : Request :=
  {| url := "http://localhost:8080/api/races/1"; method := "GET" |}.

Definition page (content : string) : Response :=
  {| status := 200; type := "basic"; contentType := Some "text/html";
     body := Content content |}.

(** Two generations side by side: the previous one and the current. *)
Definition two_generations : CacheStorage :=
  [("race-control-v0", {["http://localhost:8080/old.js" := page "old"]});
   (CACHE_NAME, {["http://localhost:8080/app.js" := page "new"]})].

(** An answer to [GET /api/races/1] kept in a cache of the origin, behind
    a cache that does not hold the URL. *)
Definition race_answer : Response :=
  {| status := 200; type := "basic"; contentType := Some "application/json";
     body := Json [("name", JString "5K Fun Run");
                   ("status", JString "active")] |}.

Definition with_race_answer : CacheStorage :=
  [(CACHE_NAME, {["http://localhost:8080/app.js" := page "new"]});
   ("race-answers", {["http://localhost:8080/api/races/1" := race_answer]})].

End Worker.

(** ** One synchronisation round of the page against the server *)
Module Sync.

Definition entry_of (r : Offline.Result) : Server.Entry :=
  {| Server.entry_runnerNumber := Some (Offline.runnerNumber r);
     Server.entry_finishTime := Some (Offline.finishTime r) |}.

(** The upload as the results handler receives it at time [now]. *)
Definition request_of (u : Offline.Upload) (now : Z) : Server.Req :=
  Server.PostResults (Offline.up_raceId u)
    (Server.Array (entry_of <$> Offline.up_results u))
    (Some (Offline.up_deviceId u)) now.

(** What the network does with the request: it reaches the server and
    the answer, if the server gives one, comes back; it never reaches
    the server; or the server handles it and the answer is lost. *)
Inductive Network :=
| Delivered
| Dropped
| Unanswered.

(** A failed attempt, as the page's [fetch] sees it: the service worker,
    when it controls the page, turns it into its offline response. *)
Definition failure (controlled : bool) : Offline.FetchOutcome :=
  if controlled
  then Offline.Responded (Worker.status Worker.offline_response)
  else Offline.Rejected.

Definition transmit (net : Network) (controlled : bool)
    (rq : Server.Req) (srv : Server.Database)
  : Server.Database * Offline.FetchOutcome :=
  match net with
  | Delivered =>
      let '(srv', resp) := Server.handle rq srv in
      (srv', match Server.code resp with
             | Some status => Offline.Responded status
             | None => failure controlled
             end)
  | Dropped => (srv, failure controlled)
  | Unanswered => ((Server.handle rq srv).1, failure controlled)
  end.

(** [syncResults()] from call to return, with nothing else running in
    between. *)
Definition syncResults (net : Network) (controlled : bool) (now : Z)
    (c : Offline.OfflineStorage) (srv : Server.Database)
  : Offline.OfflineStorage * Server.Database * bool :=
  match Offline.syncResults_begin c with
  | (c1, Offline.Returned b) => (c1, srv, b)
  | (c1, Offline.Awaiting u) =>
      let '(srv', o) := transmit net controlled (request_of u now) srv in
      let '(c2, b) := Offline.syncResults_resume o c1 in
      (c2, srv', b)
  end.

(** The rows the results handler stores for a batch, numbered from the
    table's counter. *)
Fixpoint rows_for (seq raceId : Z) (device : option string) (at_ : Z)
    (l : list Offline.Result) : list Server.ResultRow :=
  match l with
  | [] => []
  | r :: rest =>
      {| Server.row_id := seq + 1;
         Server.row_raceId := raceId;
         Server.row_runnerNumber := Offline.runnerNumber r;
         Server.row_finishTime := Offline.finishTime r;
         Server.row_uploadedBy := device;
         Server.row_uploadedAt := at_ |}
      :: rows_for (seq + 1) raceId device at_ rest
  end.

(** *** Sample rounds *)

(** The device with one queued result goes offline. *)
Definition offline_device : Offline.OfflineStorage :=
  Offline.handleConnectionChange false Offline.queued.

(** The queued device syncs, and the request is delivered or dropped. *)
Definition online_round
  : Offline.OfflineStorage * Server.Database * bool :=
  syncResults Delivered true 1700000200000 Offline.queued Server.one_race.


End Sync.

(** ** The paginated results table (createPaginatedResultsTable) *)
Module Pages.

(** [paginationState]; the rows are the results the server returned. *)
Record PaginationState := {
  results : list Server.Processed;
  currentPage : Z;
  itemsPerPage : Z;
  totalPages : Z
}.

(** [Math.ceil(a / b)] on integers, for a positive [b]. *)
Definition ceil_div (a b : Z) : Z := - ((- a) / b).

(** The state [createPaginatedResultsTable] starts from. *)
Definition paginationState (results : list Server.Processed)
    (itemsPerPage : Z) : PaginationState :=
  {| results := results;
     currentPage := 1;
     itemsPerPage := itemsPerPage;
     totalPages := ceil_div (Z.of_nat (length results)) itemsPerPage |}.

(** What [document.querySelector] finds: [true] when the document holds
    an element for the selector.  The controls are looked up in the
    document, not in the container they were put in, and
    [loadRaceResults], the only caller, puts the container into the
    document after [createPaginatedResultsTable] has returned; so while
    the table is created they are found only when the page's HTML, which
    is not among the sources, has elements of its own under these ids. *)
Definition Document := string → bool.

Definition all_found : Document := λ _, true.

(** The document while [loadRaceResults] creates the table, for a page
    whose HTML has none of the ids. *)
Definition detached : Document := λ _, false.

(** [state.results[i]] *)
Definition item (state : PaginationState) (i : Z) : option Server.Processed :=
  if i <? 0 then None else results state !! Z.to_nat i.

Definition startIndex (state : PaginationState) : Z :=
  (currentPage state - 1) * itemsPerPage state.

Definition endIndex (state : PaginationState) : Z :=
  Z.min (startIndex state + itemsPerPage state)
        (Z.of_nat (length (results state))).

(** The loop of [renderPage]: the table rows as position and result, for
    the indices from [startIndex] up to [endIndex]; [None] when it reads
    an index that holds no result and throws. *)
Definition tableRows (state : PaginationState)
  : option (list (Z * Server.Processed)) :=
  mapM (λ i, r ← item state i; Some (i + 1, r))
       (seqZ (startIndex state) (endIndex state - startIndex state)).

(** The three controls [renderPage] writes to after the loop. *)
Definition controls_found (doc : Document) : bool :=
  doc "#page-indicator" && doc "#prev-page" && doc "#next-page".

(** [renderPage]: the rows it leaves in the table when it returns;
    [None] when it throws, in the loop or on a control that
    [document.querySelector] does not find. *)
Definition renderPage (doc : Document) (state : PaginationState)
  : option (list (Z * Server.Processed)) :=
  rows ← tableRows state;
  if controls_found doc then Some rows else None.

(** [createPaginatedResultsTable].  [None] when it throws with no click
    handler in place, in the first render or on a navigation button it
    does not find.  Otherwise the state the handlers share and whether it
    returned: it looks up the search button last, and without it throws
    with the two navigation handlers in place and no search handler. *)
Definition createPaginatedResultsTable (doc : Document)
    (results : list Server.Processed) (itemsPerPage : Z)
  : option (PaginationState * bool) :=
  let state := paginationState results itemsPerPage in
  _ ← renderPage doc state;
  if doc "#prev-page" && doc "#next-page"
  then Some (state, doc "#search-button") else None.

Definition goto (page : Z) (state : PaginationState) : PaginationState :=
  {| results := results state;
     currentPage := page;
     itemsPerPage := itemsPerPage state;
     totalPages := totalPages state |}.

(** The click handlers of the two navigation buttons: the state they
    leave, which they then render. *)
Definition prev (state : PaginationState) : PaginationState :=
  if 1 <? currentPage state then goto (currentPage state - 1) state
  else state.

Definition next (state : PaginationState) : PaginationState :=
  if currentPage state <? totalPages state
  then goto (currentPage state + 1) state
  else state.

(** What the search handler passes to [showNotification]: the text
    [Runner ${runnerNumber} not found] around the number as JavaScript
    prints it, or [Please enter a valid runner number]. *)
Inductive Notification :=
| RunnerNotFound (runnerNumber : Z)
| InvalidRunnerNumber.

Definition findIndex (runnerNumber : Z) (l : list Server.Processed)
  : option nat :=
  fst <$> list_find (λ r, Server.p_runnerNumber r = runnerNumber) l.

(** The search handler, for a positive page size: the state it leaves,
    the row it highlights (when the render returned and the table has a
    row at that index, with no other click before the timer fires), and
    the notification it shows.  [input] is [parseInt] of the field,
    [None] for [NaN].  Without the search field in the document the
    handler throws at once. *)
Definition search (doc : Document) (input : option Z)
    (state : PaginationState)
  : PaginationState * option Z * option Notification :=
  if negb (doc "#runner-search") then (state, None, None)
  else
    match input with
    | Some runnerNumber =>
        if 0 <? runnerNumber then
          match findIndex runnerNumber (results state) with
          | Some runnerIndex =>
              let shown :=
                goto (Z.of_nat runnerIndex / itemsPerPage state + 1) state in
              let rowIndex :=
                Z.rem (Z.of_nat runnerIndex) (itemsPerPage state) in
              match renderPage doc shown with
              | Some rows =>
                  (shown,
                   if rows !! Z.to_nat rowIndex is Some _
                   then Some rowIndex else None,
                   None)
              | None => (shown, None, None)
              end
          | None => (state, None, Some (RunnerNotFound runnerNumber))
          end
        else (state, None, Some InvalidRunnerNumber)
    | None => (state, None, Some InvalidRunnerNumber)
    end.

(** A state whose current page is one of its pages. *)
Definition in_range (state : PaginationState) : Prop :=
  0 < itemsPerPage state
  ∧ totalPages state
    = ceil_div (Z.of_nat (length (results state))) (itemsPerPage state)
  ∧ 1 ≤ currentPage state ≤ totalPages state.

(** What the user does with a table whose navigation handlers are in
    place, each click with the document of its moment; a click on the
    search button does nothing when [searching], whether the search
    handler is in place, is [false]. *)
Inductive Click :=
| Previous
| Next
| Search (input : option Z).

Definition click (searching : bool) (doc : Document) (c : Click)
    (state : PaginationState) : PaginationState :=
  match c with
  | Previous => prev state
  | Next => next state
  | Search input =>
      if searching then (search doc input state).1.1 else state
  end.

Definition clicks (searching : bool) (cs : list (Document * Click))
    (state : PaginationState) : PaginationState :=
  foldl (λ s c, click searching c.1 c.2 s) state cs.

(** *** Sample table *)

Definition finisher (n : Z) (runner finish : Z) : Server.Processed :=
  Server.process (Some 1700000000000)
    {| Server.row_id := n; Server.row_raceId := 1;
       Server.row_runnerNumber := runner;
       Server.row_finishTime := finish;
       Server.row_uploadedBy := Some "device_k3x9q";
       Server.row_uploadedAt := 1700000200000 |}.

(** Three finishers, shown two to a page. *)
Definition sample : list Server.Processed :=
  [finisher 2 102 1700000098000;
   finisher 1 101 1700000125000;
   finisher 3 103 1700000131000].

End Pages.

(** ** The application around timer and queue (RaceControlApp) *)
Module App.

(** An entry of [this.results]. *)
Record Finish := {
  runnerNumber : Z;
  finishTime : Z;
  raceTime : Z
}.

(** The fields of the application that recording, uploading and clearing
    read and write: the selected race, the timer, the recorded results,
    [window.offlineStorage] (whose notification log stands for the one
    notification element both scripts write to), and whether the upload
    and clear buttons are disabled. *)
Record RaceControlApp := {
  currentRaceId : option Z;
  raceTimer : Timer.RaceTimer;
  results : list Finish;
  offline : Offline.OfflineStorage;
  uploadDisabled : bool;
  clearDisabled : bool
}.

Definition showNotification (msg : string) (a : RaceControlApp)
  : RaceControlApp :=
  {| currentRaceId := currentRaceId a;
     raceTimer := raceTimer a;
     results := results a;
     offline := Offline.showNotification msg (offline a);
     uploadDisabled := uploadDisabled a;
     clearDisabled := clearDisabled a |}.

(** [recordFinish()]; [input] is [parseInt] of the runner field, [None]
    for [NaN].  The timer answers [recordFinish] whenever it runs, so the
    last branch is not reached. *)
Definition recordFinish (input : option Z) (now : Z) (a : RaceControlApp)
  : RaceControlApp :=
  if negb (truthy (currentRaceId a)) then
    showNotification "No race selected" a
  else if negb (Timer.isRunning (raceTimer a)) then
    showNotification "Race timer not running" a
  else
    match input with
    | Some runner =>
        if runner <=? 0 then showNotification "Invalid runner number" a
        else
          match Timer.recordFinish now (raceTimer a) with
          | Some finish =>
              showNotification ("Runner " +:+ pretty runner +:+ " recorded")
                {| currentRaceId := currentRaceId a;
                   raceTimer := raceTimer a;
                   results := results a ++
                     [{| runnerNumber := runner;
                         finishTime := finish;
                         raceTime :=
                           finish
                           - default 0 (Timer.startTime (raceTimer a)) |}];
                   offline :=
                     Offline.storeResult
                       {| Offline.raceId := default 0 (currentRaceId a);
                          Offline.runnerNumber := runner;
                          Offline.finishTime := finish |}
                       (offline a);
                   uploadDisabled := false;
                   clearDisabled := false |}
          | None => a
          end
    | None => showNotification "Invalid runner number" a
    end.

(** The body of the upload: [this.results] reduced to runner number and
    finish time, with the device id. *)
Definition entry_of (r : Finish) : Server.Entry :=
  {| Server.entry_runnerNumber := Some (runnerNumber r);
     Server.entry_finishTime := Some (finishTime r) |}.

Definition request_of (a : RaceControlApp) (now : Z) : Server.Req :=
  Server.PostResults (default 0 (currentRaceId a))
    (Server.Array (entry_of <$> results a))
    (Some (Offline.deviceId (offline a))) now.

Definition cleared (a : RaceControlApp) : RaceControlApp :=
  {| currentRaceId := currentRaceId a;
     raceTimer := raceTimer a;
     results := [];
     offline := Offline.clearResults (offline a);
     uploadDisabled := true;
     clearDisabled := true |}.

(** [uploadResults()] from call to return, against the server. *)
Definition uploadResults (net : Sync.Network) (controlled : bool) (now : Z)
    (a : RaceControlApp) (srv : Server.Database)
  : RaceControlApp * Server.Database :=
  if negb (truthy (currentRaceId a)) then
    (showNotification "No race selected" a, srv)
  else
    match results a with
    | [] => (showNotification "No results to upload" a, srv)
    | _ :: _ =>
        if negb (Offline.isOnline (offline a)) then
          (showNotification
             "Results saved offline and will sync when online" a, srv)
        else
          let '(srv', o) :=
            Sync.transmit net controlled (request_of a now) srv in
          match o with
          | Offline.Responded status =>
              if Offline.ok status then
                (showNotification "Results uploaded successfully" (cleared a),
                 srv')
              else (showNotification "Failed to upload results" a, srv')
          | Offline.Rejected =>
              (showNotification "Failed to upload results" a, srv')
          end
    end.

(** [clearResults()]; [confirmed] is the answer to the confirm dialog. *)
Definition clearResults (confirmed : bool) (a : RaceControlApp)
  : RaceControlApp :=
  match results a with
  | [] => a
  | _ :: _ =>
      if confirmed then showNotification "Results cleared" (cleared a) else a
  end.

(** The sync button: [window.offlineStorage.syncResults()]. *)
Definition syncNow (net : Sync.Network) (controlled : bool) (now : Z)
    (a : RaceControlApp) (srv : Server.Database)
  : RaceControlApp * Server.Database :=
  let '(c, srv', _) := Sync.syncResults net controlled now (offline a) srv in
  ({| currentRaceId := currentRaceId a;
      raceTimer := raceTimer a;
      results := results a;
      offline := c;
      uploadDisabled := uploadDisabled a;
      clearDisabled := clearDisabled a |}, srv').

(** The queue entries of recorded results. *)
Definition queued (rid : Z) (l : list Finish) : list Offline.Result :=
  (λ r, {| Offline.raceId := rid;
           Offline.runnerNumber := runnerNumber r;
           Offline.finishTime := finishTime r |}) <$> l.

(** The recorded results and the stored queue agree: with nothing
    recorded the queue holds nothing of the selected race, otherwise it
    holds the recorded results. *)
Definition in_step (a : RaceControlApp) : Prop :=
  ∃ rid, currentRaceId a = Some rid ∧ rid ≠ 0 ∧
    match results a with
    | [] => ∀ d, Offline.getStoredData (offline a) = Some d →
                 Offline.data_raceId d ≠ rid
    | l => Offline.getStoredData (offline a)
           = Some {| Offline.data_raceId := rid;
                     Offline.data_results := queued rid l |}
    end.

(** *** Sample states *)

(** Race 1 is selected and its timer runs; nothing is recorded yet. *)
Definition ready : RaceControlApp :=
  {| currentRaceId := Some 1;
     raceTimer := (Timer.start (Some 1700000000000) 1700000000005 Timer.new).2;
     results := [];
     offline := Offline.device;
     uploadDisabled := false;
     clearDisabled := false |}.

Definition recorded : RaceControlApp :=
  recordFinish (Some 101) 1700000125000 ready.

End App.

(** * Properties *)

(** ** The timer *)
Module TimerSpec.
Import Timer.

Lemma start_running arg now t :
  isRunning t = true → start arg now t = (startTime t, t).
Proof. intros H. unfold start. by rewrite H. Qed.

Lemma start_makes_running arg now t :
  isRunning (start arg now t).2 = true.
Proof. unfold start. by destruct (isRunning t) eqn:E. Qed.

Lemma start_returns_field arg now t :
  (start arg now t).1 = startTime (start arg now t).2.
Proof. unfold start. by destruct (isRunning t). Qed.

(** C6.  Idempotence of [start()]: on a running timer, [start] with any
    argument at any time returns the existing [startTime] and leaves the
    timer (fields and scheduled intervals) as it was; hence a second
    [start], with no [stop]/[reset] in between, returns what the first
    returned and changes nothing. *)
Theorem start_idempotent :
  (∀ t arg now, isRunning t = true → start arg now t = (startTime t, t)) ∧
  (∀ t arg1 now1 arg2 now2,
      let first := start arg1 now1 t in
      let second := start arg2 now2 first.2 in
      second.1 = first.1 ∧ second.2 = first.2).
Proof.
  split; [intros; by apply start_running|].
  intros t arg1 now1 arg2 now2 first second. subst second.
  rewrite (start_running arg2 now2 first.2).
  - split; [|done]. simpl. symmetry. apply start_returns_field.
  - apply start_makes_running.
Qed.

Lemma start_idempotent_witness :
  isRunning running_example = true ∧
  start None 99 running_example = (Some 1700000000000, running_example).
Proof.
  split; [reflexivity|].
  apply (proj1 start_idempotent running_example None 99). reflexivity.
Defined.

End TimerSpec.

(** ** The local queue *)
Module OfflineSpec.
Import Offline.

Lemma localStorage_showNotification msg c :
  localStorage (showNotification msg c) = localStorage c.
Proof. reflexivity. Qed.

Lemma getStoredData_showNotification msg c :
  getStoredData (showNotification msg c) = getStoredData c.
Proof. reflexivity. Qed.

Lemma getStoredData_storeRaceData d c :
  getStoredData (storeRaceData d c) = Some d.
Proof.
  unfold getStoredData, storeRaceData. simpl. by rewrite lookup_insert_eq.
Qed.

Lemma localStorage_storeResult r c :
  ∃ d, localStorage (storeResult r c) = <[storageKey := Blob d]> (localStorage c)
       ∧ data_raceId d = raceId r
       ∧ ∃ before, data_results d = before ++ [r].
Proof.
  unfold storeResult. eexists. split; [reflexivity|]. simpl.
  case_bool_decide as Hne; simpl.
  - split; [done|]. by exists [].
  - split; [done|]. eauto.
Qed.

Lemma storeResult_scoped r c : scoped c → scoped (storeResult r c).
Proof.
  intros Hc d. unfold storeResult. rewrite getStoredData_storeRaceData.
  intros [= <-]. simpl.
  case_bool_decide as Hne; simpl.
  - by repeat constructor.
  - apply Forall_app. split; [|by repeat constructor].
    destruct (getStoredData c) as [d0|] eqn:E; simpl in *; [|constructor].
    by apply Hc.
Qed.

(** C5.  Race isolation: when the stored record holds raceId A and the
    result to store has raceId B with B ≠ A, [storeResult] overwrites the
    stored record in one write with a record of raceId B whose only entry
    is the new result; every entry of the new record has the record's
    raceId, and nothing else in [localStorage] changes. *)
Theorem storeResult_other_race c d r :
  getStoredData c = Some d →
  data_raceId d ≠ raceId r →
  let fresh := {| data_raceId := raceId r; data_results := [r] |} in
  localStorage (storeResult r c) = <[storageKey := Blob fresh]> (localStorage c)
  ∧ getStoredData (storeResult r c) = Some fresh
  ∧ Forall (λ e, raceId e = data_raceId fresh) (data_results fresh).
Proof.
  intros Hd Hne fresh.
  assert (storeResult r c = storeRaceData fresh c) as ->.
  { unfold storeResult. rewrite Hd. simpl.
    by rewrite bool_decide_eq_true_2. }
  split; [reflexivity|]. split.
  - apply getStoredData_storeRaceData.
  - by repeat constructor.
Qed.

Lemma storeResult_other_race_witness :
  getStoredData (storeResult finish_7 queued)
  = Some {| data_raceId := 2; data_results := [finish_7] |}.
Proof.
  apply (storeResult_other_race queued
           {| data_raceId := 1; data_results := [finish_101] |} finish_7).
  - reflexivity.
  - simpl. lia.
Defined.

Lemma syncResults_begin_pure c c' s :
  syncResults_begin c = (c', s) → localStorage c' = localStorage c.
Proof.
  unfold syncResults_begin.
  destruct (isOnline c); simpl; [|by intros [= <- _]].
  destruct (getStoredData c) as [d|]; [|by intros [= <- _]].
  destruct (data_results d); by intros [= <- _].
Qed.

Lemma syncResults_begin_awaiting c c' u :
  syncResults_begin c = (c', Awaiting u) →
  c' = c ∧ isOnline c = true ∧
  ∃ d, getStoredData c = Some d ∧ data_results d ≠ [] ∧
       u = {| up_raceId := data_raceId d;
              up_results := data_results d;
              up_deviceId := deviceId c |}.
Proof.
  unfold syncResults_begin.
  destruct (isOnline c); simpl; [|done].
  destruct (getStoredData c) as [d|]; [|done].
  destruct (data_results d) eqn:E; [done|].
  intros [= <- <-]. rewrite <- E. split; [done|]. split; [done|].
  exists d. rewrite E. done.
Qed.

Lemma syncResults_begin_ready c d :
  isOnline c = true → getStoredData c = Some d → data_results d ≠ [] →
  syncResults_begin c
  = (c, Awaiting {| up_raceId := data_raceId d;
                    up_results := data_results d;
                    up_deviceId := deviceId c |}).
Proof.
  intros Ho Hd Hne. unfold syncResults_begin. rewrite Ho, Hd. simpl.
  by destruct (data_results d).
Qed.



(** C4, as the code has it.  The claim fails: two [syncResults()] calls
    in a row on a one-entry queue leave two uploads of the same batch in
    flight. *)
Lemma reentrant_sync_uploads_twice :
  let p := run [SyncNow; SyncNow] queued_page in
  inflight (step SyncNow queued_page) ≠ [] ∧
  length (inflight p) = 2%nat ∧
  ¬ distinct_batches p.
Proof.
  split; [|split].
  - vm_compute. discriminate.
  - reflexivity.
  - unfold distinct_batches. vm_compute. intros H.
    apply NoDup_cons in H as [H _]. apply H. left.
Qed.

(** C4, amended.  [syncResults()] does not look at what is in flight:
    whenever the device is online and the queue is not empty, the call
    issues an upload of the whole current queue, also while an earlier
    upload is still pending; two calls with no change of the queue in
    between put the same batch in flight twice. *)
Theorem syncResults_not_guarded p d :
  isOnline (storage p) = true →
  getStoredData (storage p) = Some d →
  data_results d ≠ [] →
  let u := {| up_raceId := data_raceId d;
              up_results := data_results d;
              up_deviceId := deviceId (storage p) |} in
  step SyncNow p = {| storage := storage p; inflight := inflight p ++ [u] |}
  ∧ step SyncNow (step SyncNow p)
    = {| storage := storage p; inflight := inflight p ++ [u; u] |}.
Proof.
  intros Ho Hd Hne u.
  assert (∀ l, step SyncNow {| storage := storage p; inflight := l |}
               = {| storage := storage p; inflight := l ++ [u] |}) as Hstep.
  { intros l. unfold step. simpl.
    by rewrite (syncResults_begin_ready _ d Ho Hd Hne). }
  assert (step SyncNow p
          = {| storage := storage p; inflight := inflight p ++ [u] |}) as H1.
  { destruct p as [c l]. apply Hstep. }
  split; [done|]. rewrite H1, Hstep. by rewrite <- app_assoc.
Qed.

Lemma syncResults_not_guarded_witness :
  inflight (step SyncNow (step SyncNow queued_page))
  = [ {| up_raceId := 1; up_results := [finish_101];
         up_deviceId := "device_k3x9q" |};
      {| up_raceId := 1; up_results := [finish_101];
         up_deviceId := "device_k3x9q" |} ].
Proof.
  pose proof (syncResults_not_guarded queued_page
                {| data_raceId := 1; data_results := [finish_101] |}
                eq_refl eq_refl ltac:(discriminate)) as [_ H].
  rewrite H. reflexivity.
Defined.

End OfflineSpec.

(** ** The REST handlers *)
Module ServerSpec.
Import Server.

(** *** The connection *)

Lemma view_write f db : view (write f db) = f (view db).
Proof. unfold view, write. by destruct (transaction db). Qed.

Lemma begin_settled db :
  transaction db = None →
  begin_transaction db
  = Some {| committed := committed db; transaction := Some (committed db) |}.
Proof. intros E. unfold begin_transaction. by rewrite E. Qed.


Lemma open_write f db :
  is_Some (transaction db) → is_Some (transaction (write f db)).
Proof. intros [t E]. unfold write. rewrite E. simpl. eauto. Qed.

Lemma write_write f g db :
  write f (write g db) = write (λ t, f (g t)) db.
Proof. unfold write. by destruct (transaction db). Qed.

Lemma commit_open db :
  is_Some (transaction db) →
  commit db = ({| committed := view db; transaction := None |}, true).
Proof. intros [t E]. unfold commit, view. by rewrite E. Qed.

(** *** The insertion loop *)

Lemma write_id db : write (λ t, t) db = db.
Proof. unfold write. destruct db as [c [t|]]; reflexivity. Qed.

Lemma insert_each_valid raceId device at_ entries db :
  forallb entry_ok entries = true →
  insert_each raceId device at_ entries db
  = (write (insert_all raceId device at_ entries) db, false).
Proof.
  revert db. induction entries as [|e rest IH]; intros db Hok; simpl.
  - by rewrite write_id.
  - simpl in Hok. apply andb_prop in Hok as [He Hrest].
    rewrite He, IH by done. by rewrite write_write.
Qed.

Lemma insert_each_error raceId device at_ entries db db' :
  insert_each raceId device at_ entries db = (db', true) →
  forallb entry_ok entries = false.
Proof.
  revert db. induction entries as [|e rest IH]; intros db; simpl; [done|].
  destruct (entry_ok e); simpl; [apply IH|done].
Qed.

Lemma insert_each_open raceId device at_ entries db :
  is_Some (transaction db) →
  is_Some (transaction (insert_each raceId device at_ entries db).1).
Proof.
  revert db. induction entries as [|e rest IH]; intros db Ho; simpl; [done|].
  destruct (entry_ok e); simpl; [|done]. apply IH. by apply open_write.
Qed.

Lemma insert_all_races raceId device at_ entries t :
  races (insert_all raceId device at_ entries t) = races t
  ∧ races_seq (insert_all raceId device at_ entries t) = races_seq t.
Proof.
  revert t. induction entries as [|e rest IH]; intros t; simpl; [done|].
  destruct (IH (insert_result raceId (default 0 (entry_runnerNumber e))
                  (default 0 (entry_finishTime e)) device at_ t)) as [-> ->].
  done.
Qed.

Lemma handle_settled rq db :
  transaction db = None →
  valid_request rq = true →
  (handle rq db).1
  = {| committed := tables_after rq (committed db); transaction := None |}.
Proof.
  destruct db as [t [t'|]]; [done|]. intros _ Hv.
  destruct rq as [|i|n d|i now|i|i body dev now|i|i]; simpl; try done.
  - unfold view, changes. simpl. by case_bool_decide.
  - by destruct (nonempty n), (nonempty d).
  - by case_bool_decide.
  - by case_bool_decide.
  - destruct body as [| |l]; try done. simpl in Hv.
    rewrite insert_each_valid by done. done.
  - unfold view. simpl. by destruct (find_race i t).
Qed.

(** *** Selecting rows by id *)

Lemma matching_app i l l' : matching i (l ++ l') = matching i l ++ matching i l'.
Proof. apply filter_app. Qed.

Lemma matching_update i j f l :
  (∀ r, id (f r) = id r) →
  matching i ((λ r, if bool_decide (id r = j) then f r else r) <$> l)
  = if bool_decide (i = j) then f <$> matching i l else matching i l.
Proof.
  intros Hf. unfold matching.
  induction l as [|r l IH].
  - by case_bool_decide.
  - rewrite fmap_cons, !filter_cons, IH.
    destruct (decide (id r = j)) as [Hj|Hj].
    + rewrite (bool_decide_eq_true_2 _ Hj), Hf.
      destruct (decide (id r = i)) as [Hi|Hi].
      * rewrite bool_decide_eq_true_2 by congruence. done.
      * by case_bool_decide.
    + rewrite (bool_decide_eq_false_2 _ Hj).
      destruct (decide (id r = i)) as [Hi|Hi]; [|done].
      rewrite bool_decide_eq_false_2 by congruence. done.
Qed.

Lemma matching_delete i j l :
  matching i (filter (λ r, id r ≠ j) l)
  = if bool_decide (i = j) then [] else matching i l.
Proof.
  unfold matching. induction l as [|r l IH].
  - by case_bool_decide.
  - rewrite !filter_cons.
    destruct (decide (id r ≠ j)) as [Hj|Hj].
    + rewrite filter_cons, IH.
      destruct (decide (id r = i)) as [Hi|Hi]; [|done].
      rewrite bool_decide_eq_false_2 by congruence. done.
    + rewrite IH. apply dec_stable in Hj.
      destruct (decide (id r = i)) as [Hi|Hi]; [|done].
      rewrite bool_decide_eq_true_2 by congruence. done.
Qed.

Lemma matching_none i l :
  Forall (λ r, id r ≠ i) l → matching i l = [].
Proof.
  unfold matching. induction 1 as [|r l Hr _ IH]; [done|].
  rewrite filter_cons. by destruct (decide (id r = i)).
Qed.

Lemma matching_id i l a : a ∈ matching i l → id a = i ∧ a ∈ l.
Proof. unfold matching. intros H. by apply list_elem_of_filter in H. Qed.

Lemma changes_zero i t : changes i t = 0%nat ↔ find_race i t = None.
Proof.
  unfold changes, find_race. destruct (matching i (races t)); simpl; split; done.
Qed.

(** *** One request *)

Lemma Forall_filter_keep {A} (P Q : A → Prop) `{∀ x, Decision (Q x)} l :
  Forall P l → Forall P (filter Q l).
Proof.
  intros H0. apply Forall_forall. intros x Hx.
  apply list_elem_of_filter in Hx as [_ Hx].
  by eapply Forall_forall in H0.
Qed.

Lemma tables_after_seq rq t : races_seq t ≤ races_seq (tables_after rq t).
Proof.
  destruct rq as [|i|n d|i now|i|i body dev now|i|i]; simpl; try lia.
  - case_bool_decide; simpl; lia.
  - destruct (nonempty n), (nonempty d); simpl; lia.
  - destruct body as [| |l]; try lia.
    destruct (insert_all_races i dev now l t) as [_ ->]. lia.
Qed.

Lemma tables_after_ids rq t :
  Forall (λ r, id r ≤ races_seq t) (races t) →
  Forall (λ r, id r ≤ races_seq (tables_after rq t))
         (races (tables_after rq t)).
Proof.
  intros Ht.
  destruct rq as [|i|n d|i now|i|i body dev now|i|i]; simpl; try done.
  - case_bool_decide; simpl; [done|]. by apply Forall_filter_keep.
  - destruct (nonempty n), (nonempty d); simpl; try done.
    apply Forall_app. split.
    + eapply Forall_impl; [exact Ht|]. simpl. intros; lia.
    + repeat constructor. simpl. lia.
  - apply Forall_fmap. eapply Forall_impl; [exact Ht|].
    intros r Hr. simpl. by case_bool_decide.
  - apply Forall_fmap. eapply Forall_impl; [exact Ht|].
    intros r Hr. simpl. by case_bool_decide.
  - destruct body as [| |l]; try done.
    by destruct (insert_all_races i dev now l t) as [-> ->].
Qed.

Lemma settled_step rq db :
  settled db → valid_request rq = true → settled (handle rq db).1.
Proof.
  intros [Hn Hids] Hv. rewrite handle_settled by done.
  split; [done|]. simpl. by apply tables_after_ids.
Qed.

Lemma view_step rq db :
  settled db → valid_request rq = true →
  view (handle rq db).1 = tables_after rq (view db).
Proof.
  intros [Hn Hids] Hv. rewrite handle_settled by done.
  unfold view. simpl. by rewrite Hn.
Qed.

(** The row that [WHERE id = raceId] finds after a request. *)
Lemma find_race_after raceId rq t :
  find_race raceId (tables_after rq t) =
  match rq with
  | DeleteRace i =>
      if bool_decide (raceId = i) then None else find_race raceId t
  | PostRace n d =>
      match nonempty n, nonempty d, find_race raceId t with
      | Some n, Some d, None =>
          if bool_decide (races_seq t + 1 = raceId)
          then Some {| id := races_seq t + 1; name := n; date := d;
                       startTime := None; status := pending |}
          else None
      | _, _, found => found
      end
  | PutStart i now =>
      if bool_decide (raceId = i)
      then set_started now <$> find_race raceId t
      else find_race raceId t
  | PutEnd i =>
      if bool_decide (raceId = i)
      then set_completed <$> find_race raceId t
      else find_race raceId t
  | _ => find_race raceId t
  end.
Proof.
  unfold find_race.
  destruct rq as [|i|n d|i now|i|i body dev now|i|i]; simpl; try done.
  - case_bool_decide as Hc; simpl.
    + case_bool_decide as Hi; [|done]. subst i.
      unfold changes in Hc. by destruct (matching raceId (races t)).
    + by rewrite matching_delete; case_bool_decide.
  - destruct (nonempty n) as [n'|], (nonempty d) as [d'|]; simpl; try done;
      try by destruct (head _).
    rewrite matching_app, head_app.
    destruct (head (matching raceId (races t))); [done|].
    unfold matching. rewrite filter_cons. simpl.
    destruct (decide _); case_bool_decide; done.
  - rewrite matching_update by done.
    case_bool_decide; [|done]. by destruct (matching raceId (races t)).
  - rewrite matching_update by done.
    case_bool_decide; [|done]. by destruct (matching raceId (races t)).
  - destruct body as [| |l]; try done.
    by destruct (insert_all_races i dev now l t) as [-> _].
Qed.

Lemma find_race_bound raceId t r :
  Forall (λ r, id r ≤ races_seq t) (races t) →
  find_race raceId t = Some r → raceId ≤ races_seq t.
Proof.
  intros Ht Hr. unfold find_race in Hr.
  apply head_Some_elem_of in Hr. apply matching_id in Hr as [<- Hr].
  by eapply Forall_forall in Ht.
Qed.

Lemma allowed_valid raceId rq db :
  allowed raceId rq db = true → valid_request rq = true.
Proof. by destruct rq. Qed.

Lemma status_step raceId rq db :
  settled db → allowed raceId rq db = true →
  match status_of raceId db, status_of raceId (handle rq db).1 with
  | Some s, Some s' => (rank s ≤ rank s')%nat
  | None, Some s' => races_seq (view db) < raceId
  | _, None => True
  end.
Proof.
  intros Hs Ha. pose proof (allowed_valid _ _ _ Ha) as Hv.
  unfold status_of in *. rewrite view_step, find_race_after by done.
  destruct rq as [|i|n d|i now|i|i body dev now|i|i]; simpl in *;
    try (destruct (find_race raceId (view db)); simpl; done || lia).
  - case_bool_decide; destruct (find_race raceId (view db)); simpl;
      done || lia.
  - destruct (nonempty n), (nonempty d), (find_race raceId (view db));
      simpl; try (done || lia).
    case_bool_decide; simpl; [lia|done].
  - destruct (decide (raceId = i)) as [<-|Hi].
    + rewrite bool_decide_eq_true_2 by done.
      rewrite bool_decide_eq_true_2 in Ha by done.
      unfold status_of in Ha.
      destruct (find_race raceId (view db)) as [r|]; simpl in *; [|done].
      destruct (status r); simpl; done || lia.
    + rewrite bool_decide_eq_false_2 by done.
      destruct (find_race raceId (view db)); simpl; done || lia.
  - case_bool_decide; destruct (find_race raceId (view db)) as [r|];
      simpl; try (done || lia). destruct (status r); simpl; lia.
Qed.

Lemma status_bound raceId db s :
  settled db → status_of raceId db = Some s → raceId ≤ races_seq (view db).
Proof.
  intros [Hn Hids]. unfold status_of, view. rewrite Hn. simpl.
  destruct (find_race raceId (committed db)) as [r|] eqn:E; [|done].
  intros _. by eapply find_race_bound.
Qed.

Lemma seq_step rq db :
  settled db → valid_request rq = true →
  races_seq (view db) ≤ races_seq (view (handle rq db).1).
Proof. intros. rewrite view_step by done. apply tables_after_seq. Qed.

(** *** Sequences of requests *)

Lemma no_regression_cons s l :
  Forall (λ s', (rank s ≤ rank s')%nat) l →
  no_regression l = true → no_regression (s :: l) = true.
Proof.
  intros Hl Hr. destruct l as [|b l]; [done|].
  apply Forall_cons in Hl as [Hb _].
  change (((rank s <=? rank b)%nat && no_regression (b :: l)) = true).
  rewrite Hr, andb_true_r. by apply Nat.leb_le.
Qed.

Lemma observed_sorted raceId rqs : ∀ db,
  settled db → disciplined raceId rqs db = true →
  no_regression (observed raceId rqs db) = true
  ∧ (∀ s, status_of raceId db = Some s →
          Forall (λ s', (rank s ≤ rank s')%nat) (observed raceId rqs db))
  ∧ (status_of raceId db = None → raceId ≤ races_seq (view db) →
     observed raceId rqs db = []).
Proof.
  induction rqs as [|rq rest IH]; intros db Hs Hd.
  - simpl. rewrite app_nil_r.
    destruct (status_of raceId db) as [s|]; simpl; repeat split; try done.
    intros s' [= ->]. by repeat constructor.
  - simpl in Hd. apply andb_prop in Hd as [Ha Hd].
    pose proof (allowed_valid _ _ _ Ha) as Hv.
    pose proof (settled_step rq db Hs Hv) as Hs'.
    pose proof (status_step raceId rq db Hs Ha) as Hstep.
    pose proof (seq_step rq db Hs Hv) as Hseq.
    destruct (IH _ Hs' Hd) as (Hreg & Hall & Hgone).
    change (observed raceId (rq :: rest) db)
      with (option_list (status_of raceId db)
            ++ observed raceId rest (handle rq db).1).
    destruct (status_of raceId db) as [s|] eqn:Es; simpl.
    + assert (Forall (λ s', (rank s ≤ rank s')%nat)
                (observed raceId rest (handle rq db).1)) as Hle.
      { destruct (status_of raceId (handle rq db).1) as [s'|] eqn:Es'.
        - eapply Forall_impl; [by apply Hall|]. simpl. intros; lia.
        - rewrite Hgone; [constructor|done|].
          pose proof (status_bound _ _ _ Hs Es). lia. }
      repeat split; try done.
      * by apply no_regression_cons.
      * intros s0 [= <-]. by constructor.
    + repeat split; try done. intros _ Hb.
      destruct (status_of raceId (handle rq db).1) as [s'|] eqn:Es';
        [lia|]. apply Hgone; [done|lia].
Qed.

Lemma assignments_none raceId rqs : ∀ db,
  settled db → disciplined raceId rqs db = true →
  match status_of raceId db with
  | Some s => (1 ≤ rank s)%nat
  | None => raceId ≤ races_seq (view db)
  end →
  assignments raceId rqs db = 0%nat.
Proof.
  induction rqs as [|rq rest IH]; intros db Hs Hd Hst; [done|].
  simpl in Hd. apply andb_prop in Hd as [Ha Hd].
  pose proof (allowed_valid _ _ _ Ha) as Hv.
  pose proof (settled_step rq db Hs Hv) as Hs'.
  pose proof (status_step raceId rq db Hs Ha) as Hstep.
  pose proof (seq_step rq db Hs Hv) as Hseq.
  simpl. rewrite IH; try done.
  - assert (writes_startTime raceId rq db = false) as ->; [|done].
    destruct rq as [|i|n d|i now|i|i body dev now|i|i]; simpl; try done.
    destruct (decide (i = raceId)) as [->|Hi];
      [|by rewrite bool_decide_eq_false_2].
    rewrite bool_decide_eq_true_2 by done. simpl.
    unfold allowed in Ha. rewrite bool_decide_eq_true_2 in Ha by done.
    unfold status_of in *.
    destruct (find_race raceId (view db)) as [r|] eqn:E; simpl in *.
    + destruct (status r); simpl in *; done || lia.
    + apply changes_zero in E. rewrite E. by rewrite bool_decide_eq_true_2.
  - destruct (status_of raceId db) as [s|] eqn:Es;
      destruct (status_of raceId (handle rq db).1) as [s'|] eqn:Es';
      try lia.
    pose proof (status_bound _ _ _ Hs Es). lia.
Qed.

Lemma assignments_once raceId rqs : ∀ db,
  settled db → disciplined raceId rqs db = true →
  (assignments raceId rqs db ≤ 1)%nat.
Proof.
  induction rqs as [|rq rest IH]; intros db Hs Hd; [simpl; lia|].
  pose proof Hd as Hd0.
  simpl in Hd. apply andb_prop in Hd as [Ha Hd].
  pose proof (allowed_valid _ _ _ Ha) as Hv.
  pose proof (settled_step rq db Hs Hv) as Hs'.
  simpl. destruct (writes_startTime raceId rq db) eqn:Ew.
  - rewrite assignments_none; [lia|done|done|].
    destruct rq as [|i|n d|i now|i|i body dev now|i|i]; simpl in Ew; try done.
    apply andb_prop in Ew as [Hi Hc].
    apply bool_decide_eq_true in Hi. subst i.
    unfold status_of. rewrite view_step, find_race_after by done.
    rewrite bool_decide_eq_true_2 by done.
    destruct (find_race raceId (view db)) as [r|] eqn:E; simpl; [lia|].
    apply changes_zero in E. by rewrite E in Hc.
  - specialize (IH _ Hs' Hd). lia.
Qed.

Lemma startTime_step raceId rq db :
  settled db → allowed raceId rq db = true →
  is_Some (status_of raceId (handle rq db).1) →
  startTime_of raceId (handle rq db).1 ≠ startTime_of raceId db →
  status_of raceId db = Some pending
  ∧ status_of raceId (handle rq db).1 = Some active.
Proof.
  intros Hs Ha. pose proof (allowed_valid _ _ _ Ha) as Hv.
  unfold status_of, startTime_of. rewrite view_step, find_race_after by done.
  destruct rq as [|i|n d|i now|i|i body dev now|i|i]; simpl; try done.
  - case_bool_decide; [by intros [? ?]|done].
  - destruct (nonempty n), (nonempty d), (find_race raceId (view db));
      simpl; try done.
    case_bool_decide; simpl; done.
  - destruct (decide (raceId = i)) as [<-|Hi].
    + rewrite bool_decide_eq_true_2 by done.
      unfold allowed in Ha. rewrite bool_decide_eq_true_2 in Ha by done.
      unfold status_of in Ha.
      destruct (find_race raceId (view db)) as [r|]; simpl in *;
        [|by intros [? ?]].
      by destruct (status r).
    + by rewrite bool_decide_eq_false_2.
  - case_bool_decide; [|done].
    by destruct (find_race raceId (view db)).
Qed.

Lemma settled_after raceId rqs : ∀ db,
  settled db → disciplined raceId rqs db = true → settled (after rqs db).
Proof.
  induction rqs as [|rq rest IH]; intros db Hs Hd; [done|].
  simpl in Hd. apply andb_prop in Hd as [Ha Hd].
  apply IH; [|done]. eapply settled_step, allowed_valid; done.
Qed.

Lemma disciplined_app raceId pre : ∀ rest db,
  disciplined raceId (pre ++ rest) db = true →
  disciplined raceId pre db = true
  ∧ disciplined raceId rest (after pre db) = true.
Proof.
  induction pre as [|rq pre IH]; intros rest db Hd; [done|].
  simpl in Hd. apply andb_prop in Hd as [Ha Hd].
  destruct (IH _ _ Hd) as [H1 H2]. simpl. by rewrite Ha, H1.
Qed.

(** C1, as the code has it.  The claim fails: starting a race that was
    started and ended puts it back from completed to active, and the
    second start overwrites the startTime of the first. *)
Lemma restart_regresses :
  observed 1 restart one_race = [pending; active; completed; active]
  ∧ no_regression (observed 1 restart one_race) = false
  ∧ assignments 1 restart one_race = 2%nat
  ∧ startTime_of 1 (after [PutStart 1 1700000000000] one_race)
    = Some 1700000000000
  ∧ startTime_of 1 (after restart one_race) = Some 1700000500000.
Proof. repeat split; reflexivity. Qed.

(** C1, amended.  On a connection with no transaction pending (and race
    ids within the AUTOINCREMENT counter, as SQLite keeps them), for every
    race and every sequence of requests that asks to start that race only
    while it is pending and whose results batches have no invalid entry:
    the statuses observed never step back along (pending, active,
    completed); at most one request writes the race's startTime; and a
    request after which the race's startTime differs is a transition from
    pending to active. *)
Theorem status_never_regresses raceId rqs db :
  settled db →
  disciplined raceId rqs db = true →
  no_regression (observed raceId rqs db) = true
  ∧ (assignments raceId rqs db ≤ 1)%nat
  ∧ ∀ pre rq post, rqs = pre ++ rq :: post →
      is_Some (status_of raceId (after (pre ++ [rq]) db)) →
      startTime_of raceId (after (pre ++ [rq]) db)
        ≠ startTime_of raceId (after pre db) →
      status_of raceId (after pre db) = Some pending
      ∧ status_of raceId (after (pre ++ [rq]) db) = Some active.
Proof.
  intros Hs Hd. split; [|split].
  - by apply observed_sorted.
  - by apply assignments_once.
  - intros pre rq post -> Hsome Hne.
    apply disciplined_app in Hd as [Hpre Hd].
    simpl in Hd. apply andb_prop in Hd as [Ha _].
    unfold after in *. rewrite foldl_app in *. simpl in *.
    apply startTime_step; try done.
    by apply (settled_after raceId).
Qed.

Lemma status_never_regresses_witness :
  no_regression (observed 1 race_day one_race) = true
  ∧ (assignments 1 race_day one_race ≤ 1)%nat.
Proof.
  assert (settled one_race) as Hs.
  { split; [reflexivity|]. repeat constructor. simpl. lia. }
  destruct (status_never_regresses 1 race_day one_race Hs eq_refl)
    as (H1 & H2 & _).
  split; assumption.
Defined.

(** The race-day scenario: runner 102 is listed before runner 101, with
    race times 98000 and 125000. *)
Example race_day_results :
  (handle (GetResults 1) (after race_day one_race)).2
  = respond 200 (ResultList
      [ {| p_id := 2; p_runnerNumber := 102; p_finishTime := 1700000098000;
           p_raceTime := Some 98000; p_uploadedBy := Some "device_k3x9q";
           p_uploadedAt := 1700000200000 |};
        {| p_id := 1; p_runnerNumber := 101; p_finishTime := 1700000125000;
           p_raceTime := Some 125000; p_uploadedBy := Some "device_k3x9q";
           p_uploadedAt := 1700000200000 |} ])
  ∧ observed 1 race_day one_race
    = [pending; active; active; completed; completed].
Proof. split; reflexivity. Qed.

(** C2, at a failing input.  A batch whose second entry lacks finishTime
    is answered with 400, yet the row of its first entry has been
    inserted in a transaction that is neither committed nor rolled back:
    the next read on the connection lists it. *)
Theorem partial_batch_is_listed :
  let rq := PostResults 1 broken_batch (Some "device_k3x9q") 1700000200000 in
  let db := (handle rq one_race).1 in
  (handle rq one_race).2
  = respond 400
      (Error "Runner number and finish time are required for each result")
  ∧ results (view one_race) = []
  ∧ is_Some (transaction db)
  ∧ (handle (GetResults 1) db).2
    = respond 200 (ResultList
        [ {| p_id := 1; p_runnerNumber := 101;
             p_finishTime := 1700000125000; p_raceTime := None;
             p_uploadedBy := Some "device_k3x9q";
             p_uploadedAt := 1700000200000 |} ]).
Proof. repeat split; try reflexivity. vm_compute. eauto. Qed.

(** *** The results handlers *)

Lemma post_results_shape raceId body dev now db :
  match body with Array _ => False | _ => True end →
  handle (PostResults raceId body dev now) db
  = (db, respond 400 (Error "Results array is required")).
Proof. by destruct body. Qed.

Lemma insert_each_clean raceId device at_ entries : ∀ db db',
  insert_each raceId device at_ entries db = (db', false) →
  forallb entry_ok entries = true.
Proof.
  induction entries as [|e rest IH]; intros db db'; simpl; [done|].
  destruct (entry_ok e); simpl; [apply IH|done].
Qed.

Lemma post_results_invalid raceId entries dev now db :
  forallb entry_ok entries = false →
  code (handle (PostResults raceId (Array entries) dev now) db).2
  = Some 400.
Proof.
  intros Hbad. simpl.
  destruct (begin_transaction db) as [db1|]; [|by rewrite Hbad].
  destruct (insert_each raceId dev now entries db1)
    as [db2 [|]] eqn:E; [done|].
  apply insert_each_clean in E. congruence.
Qed.


Lemma filter_none {A} (P : A → Prop) `{∀ x, Decision (P x)} l :
  Forall (λ x, ¬ P x) l → filter P l = [].
Proof.
  induction 1 as [|x l Hx _ IH]; [done|].
  rewrite filter_cons. by destruct (decide (P x)).
Qed.

Lemma raceTime_unset finish : raceTime None finish = None.
Proof. reflexivity. Qed.

(** C10, as the code has it.  The claim fails: results uploaded for a
    race id that has no row are stored, and the results query for that id
    then answers 200 with a list that is not empty. *)
Lemma orphan_results_listed :
  find_race 999 (view orphaned) = None
  ∧ (handle (GetResults 999) orphaned).2
    = respond 200 (ResultList
        [ {| p_id := 1; p_runnerNumber := 101;
             p_finishTime := 1700000125000; p_raceTime := None;
             p_uploadedBy := Some "device_k3x9q";
             p_uploadedAt := 1700000200000 |} ]).
Proof. split; reflexivity. Qed.

(** C10, amended.  Whenever the race's startTime is unset (the race has
    no row, or its startTime is NULL), [GET /api/races/:id/results]
    answers 200, never 404, with one entry for each result row stored
    under that id, all with raceTime null; the list is empty exactly when
    no row is stored under the id. *)
Theorem results_of_unstarted_race raceId db :
  startTime_of raceId db = None →
  ∃ rows,
    handle (GetResults raceId) db = (db, respond 200 (ResultList rows))
    ∧ rows ≡ₚ process None
               <$> filter (λ r, row_raceId r = raceId) (results (view db))
    ∧ Forall (λ p, p_raceTime p = None) rows
    ∧ (rows = [] ↔ Forall (λ r, row_raceId r ≠ raceId) (results (view db))).
Proof.
  intros Hst. unfold startTime_of in Hst.
  eexists. split; [simpl; unfold select_results; rewrite Hst; reflexivity|].
  assert (process None <$> merge_sort by_finishTime
            (filter (λ r, row_raceId r = raceId) (results (view db)))
          ≡ₚ process None
             <$> filter (λ r, row_raceId r = raceId) (results (view db)))
    as Hperm by (by rewrite merge_sort_Permutation).
  split; [done|]. split.
  - apply Forall_fmap, Forall_true. done.
  - split.
    + intros Hnil. rewrite Hnil in Hperm. symmetry in Hperm.
      apply Permutation_nil_r in Hperm. apply fmap_nil_inv in Hperm.
      apply Forall_forall. intros r Hr Heq.
      assert (r ∈ filter (λ r, row_raceId r = raceId) (results (view db)))
        as Hin by (by apply list_elem_of_filter).
      rewrite Hperm in Hin. by apply elem_of_nil in Hin.
    + intros Hall.
      assert (filter (λ r, row_raceId r = raceId) (results (view db)) = [])
        as Hnil.
      { by apply filter_none. }
      by rewrite Hnil.
Qed.

Lemma results_of_unstarted_race_witness :
  ∃ rows,
    handle (GetResults 999) orphaned = (orphaned, respond 200 (ResultList rows))
    ∧ Forall (λ p, p_raceTime p = None) rows.
Proof.
  destruct (results_of_unstarted_race 999 orphaned eq_refl)
    as (rows & H1 & _ & H2 & _).
  exists rows. split; assumption.
Defined.

End ServerSpec.

(** ** One synchronisation round *)
Module SyncSpec.
Import Offline OfflineSpec Sync.

Lemma entries_ok (l : list Result) :
  forallb Server.entry_ok (entry_of <$> l) = true →
  Forall (λ r, runnerNumber r ≠ 0 ∧ finishTime r ≠ 0) l.
Proof.
  induction l as [|r l IH]; simpl; [constructor|].
  intros H. apply andb_prop in H as [Hr Hl].
  constructor; [|by apply IH].
  unfold Server.entry_ok, entry_of, truthy in Hr. simpl in Hr.
  apply andb_prop in Hr as [H1 H2].
  apply negb_true_iff, Z.eqb_neq in H1, H2. done.
Qed.

Lemma insert_all_rows raceId device at_ (l : list Result) : ∀ t,
  Server.results (Server.insert_all raceId device at_ (entry_of <$> l) t)
  = Server.results t
    ++ rows_for (Server.results_seq t) raceId device at_ l.
Proof.
  induction l as [|r l IH]; intros t; simpl.
  - by rewrite app_nil_r.
  - rewrite IH. simpl. by rewrite <- app_assoc.
Qed.

Lemma rows_for_each seq raceId device at_ (l : list Result) :
  (λ row, (Server.row_raceId row, Server.row_runnerNumber row,
           Server.row_finishTime row, Server.row_uploadedBy row))
    <$> rows_for seq raceId device at_ l
  = (λ r, (raceId, runnerNumber r, finishTime r, device)) <$> l.
Proof.
  revert seq. induction l as [|r l IH]; intros seq; simpl; [done|].
  by rewrite IH.
Qed.





(** C7.  Preconditions of [syncResults()].  When the device is offline
    the call notifies "Cannot sync while offline" and returns false
    before any request is built; when it is online and nothing is queued
    it notifies "No data to synchronize" and returns false likewise.  In
    both cases no upload is issued, the server is untouched whatever the
    network would have done, and [localStorage] is unchanged. *)
Theorem syncResults_preconditions net controlled now c srv :
  (isOnline c = false →
     let c' := showNotification "Cannot sync while offline" c in
     syncResults_begin c = (c', Returned false)
     ∧ syncResults net controlled now c srv = (c', srv, false)
     ∧ localStorage c' = localStorage c)
  ∧ (isOnline c = true → hasUnsyncedData c = false →
     let c' := showNotification "No data to synchronize" c in
     syncResults_begin c = (c', Returned false)
     ∧ syncResults net controlled now c srv = (c', srv, false)
     ∧ localStorage c' = localStorage c).
Proof.
  split.
  - intros Hoff c'.
    assert (syncResults_begin c = (c', Returned false)) as Hb.
    { unfold syncResults_begin. by rewrite Hoff. }
    unfold syncResults. by rewrite Hb.
  - intros Hon Hempty c'.
    assert (syncResults_begin c = (c', Returned false)) as Hb.
    { unfold syncResults_begin, hasUnsyncedData in *. rewrite Hon. simpl.
      destruct (getStoredData c) as [d|]; [|done].
      destruct (data_results d); [done|].
      apply bool_decide_eq_false in Hempty. by destruct Hempty. }
    unfold syncResults. by rewrite Hb.
Qed.

Lemma syncResults_preconditions_witness :
  syncResults Delivered true 1700000200000 offline_device Server.one_race
  = (showNotification "Cannot sync while offline" offline_device,
     Server.one_race, false)
  ∧ syncResults Delivered true 1700000200000 device Server.one_race
    = (showNotification "No data to synchronize" device,
       Server.one_race, false).
Proof.
  split.
  - apply (proj1 (syncResults_preconditions Delivered true 1700000200000
                    offline_device Server.one_race)). reflexivity.
  - apply (proj2 (syncResults_preconditions Delivered true 1700000200000
                    device Server.one_race)); reflexivity.
Defined.

End SyncSpec.

(** ** The service worker *)
Module WorkerSpec.
Import Worker.

Lemma match_url_Some u (cs : CacheStorage) r :
  match_url u cs = Some r →
  ∃ cacheName cache, (cacheName, cache) ∈ cs ∧ cache !! u = Some r.
Proof.
  induction cs as [|[n c] cs IH]; simpl; [done|].
  destruct (c !! u) as [r'|] eqn:E.
  - intros [= ->]. exists n, c. split; [left|done].
  - intros H. destruct (IH H) as (n' & c' & Hin & Hc).
    exists n', c'. split; [by right|done].
Qed.

Lemma match_url_None u (cs : CacheStorage) :
  match_url u cs = None ↔ Forall (λ p, p.2 !! u = None) cs.
Proof.
  induction cs as [|[n c] cs IH]; simpl; [by split; [constructor|]|].
  destruct (c !! u) as [r'|] eqn:E; split.
  - done.
  - intros H. apply Forall_cons in H as [H _]. simpl in H. congruence.
  - intros H. constructor; [done|]. by apply IH.
  - intros H. apply Forall_cons in H as [_ H]. by apply IH.
Qed.

Lemma match_url_first u before cacheName cache after r :
  Forall (λ p : string * Cache, p.2 !! u = None) before →
  cache !! u = Some r →
  match_url u (before ++ (cacheName, cache) :: after) = Some r.
Proof.
  intros Hb Hc. induction Hb as [|[n c] before Hn _ IH]; simpl.
  - by rewrite Hc.
  - simpl in Hn. by rewrite Hn.
Qed.

(** C8.  An intercepted same-origin API request whose network attempt
    fails.  A GET is answered from the caches: when some cache holds a
    response under the request's URL, with the stored response of the
    first such cache in creation order, whatever its age; when no cache
    holds one, with nothing.  POST, PUT and DELETE are answered with the
    made-up response, whose status 503 is in the 5xx class and whose JSON
    body has the field offline set to true.  The caches are not
    written. *)
Theorem api_request_offline origin rq (cs : CacheStorage) :
  String.prefix origin (url rq) = true →
  includes "/api/" (url rq) = true →
  (method rq = "GET" →
     (∀ before cacheName cache after r,
        cs = before ++ (cacheName, cache) :: after →
        Forall (λ p, p.2 !! url rq = None) before →
        cache !! url rq = Some r →
        on_fetch origin rq None cs = (cs, RespondWith (Some r)))
     ∧ (Forall (λ p, p.2 !! url rq = None) cs →
        on_fetch origin rq None cs = (cs, RespondWith None)))
  ∧ (method rq ∈ ["POST"; "PUT"; "DELETE"] →
     on_fetch origin rq None cs = (cs, RespondWith (Some offline_response)))
  ∧ 500 ≤ status offline_response ≤ 599
  ∧ json_field "offline" (body offline_response) = Some (JBool true).
Proof.
  intros Ho Ha. unfold on_fetch. rewrite Ho, Ha. simpl.
  split; [|split; [|split; [lia|done]]].
  - intros Hm. unfold caches_match. rewrite !bool_decide_eq_true_2 by done.
    split.
    + intros before n c after r -> Hb Hc.
      by rewrite (match_url_first _ _ _ _ _ _ Hb Hc).
    + intros Hnone. by apply match_url_None in Hnone as ->.
  - intros Hm. rewrite bool_decide_eq_false_2; [done|].
    intros Hget. rewrite Hget in Hm.
    repeat (apply elem_of_cons in Hm as [Hm|Hm]; [done|]).
    by apply elem_of_nil in Hm.
Qed.

Lemma api_request_offline_witness :
  on_fetch origin get_race None with_race_answer
  = (with_race_answer, RespondWith (Some race_answer))
  ∧ on_fetch origin get_race None two_generations
    = (two_generations, RespondWith None)
  ∧ on_fetch origin post_results None with_race_answer
    = (with_race_answer, RespondWith (Some offline_response)).
Proof.
  split; [|split].
  - apply (proj1 (proj1 (api_request_offline origin get_race with_race_answer
                           eq_refl eq_refl) eq_refl)
             [(CACHE_NAME, {["http://localhost:8080/app.js" := page "new"]})]
             "race-answers"
             {["http://localhost:8080/api/races/1" := race_answer]} []).
    + reflexivity.
    + by repeat constructor.
    + reflexivity.
  - apply (proj2 (proj1 (api_request_offline origin get_race two_generations
                           eq_refl eq_refl) eq_refl)).
    by repeat constructor.
  - apply (api_request_offline origin post_results with_race_answer
             eq_refl eq_refl).
    left.
Defined.

(** *** Activation *)

Lemma filter_all {A} (P : A → Prop) `{∀ x, Decision (P x)} l :
  Forall P l → filter P l = l.
Proof.
  induction 1 as [|x l Hx _ IH]; [done|].
  rewrite filter_cons, IH. by destruct (decide (P x)).
Qed.

Lemma filter_agree {A} (P Q : A → Prop)
    `{∀ x, Decision (P x)} `{∀ x, Decision (Q x)} (l : list A) :
  (∀ x, x ∈ l → P x ↔ Q x) → filter P l = filter Q l.
Proof.
  induction l as [|x l IH]; intros Hl; [done|].
  rewrite !filter_cons, IH by (intros y Hy; apply Hl; by right).
  pose proof (Hl x ltac:(left)) as Hx.
  destruct (decide (P x)), (decide (Q x)); tauto.
Qed.

Lemma delete_all names : ∀ cs : CacheStorage,
  foldl (λ cs cacheName, caches_delete cacheName cs) cs names
  = filter (λ p, p.1 ∉ names) cs.
Proof.
  induction names as [|n names IH]; intros cs; simpl.
  - symmetry. apply filter_all, Forall_forall. intros p _. apply not_elem_of_nil.
  - rewrite IH. unfold caches_delete. rewrite list_filter_filter.
    apply list_filter_iff. intros p. rewrite not_elem_of_cons. tauto.
Qed.

Lemma activate_filter (cs : CacheStorage) :
  activate cs = filter (λ p, p.1 = CACHE_NAME) cs.
Proof.
  unfold activate. rewrite delete_all. apply filter_agree.
  intros p Hp. rewrite list_elem_of_filter. split.
  - intros Hn. destruct (decide (p.1 = CACHE_NAME)) as [|Hne]; [done|].
    destruct Hn. split; [done|]. unfold keys. by apply list_elem_of_fmap_2.
  - intros Heq [Hne _]. done.
Qed.

(** C9.  Activation keeps exactly the caches named [CACHE_NAME]: every
    cache with another name is deleted whole, so afterwards no cache of
    another name can be opened for reading and whatever [caches.match]
    returns is an entry of a cache of the current name. *)
Theorem activate_keeps_current_only (cs : CacheStorage) :
  activate cs = filter (λ p, p.1 = CACHE_NAME) cs
  ∧ (∀ cacheName, cacheName ≠ CACHE_NAME →
       lookup_cache cacheName (activate cs) = None
       ∧ cacheName ∉ keys (activate cs))
  ∧ (∀ rq r, caches_match rq (activate cs) = Some r →
       ∃ cache, (CACHE_NAME, cache) ∈ cs ∧ cache !! url rq = Some r).
Proof.
  split; [apply activate_filter|]. rewrite activate_filter. split.
  - intros n Hn.
    assert (n ∉ keys (filter (λ p, p.1 = CACHE_NAME) cs)) as Hkeys.
    { unfold keys. intros Hin. apply list_elem_of_fmap in Hin as (p & -> & Hp).
      apply list_elem_of_filter in Hp as [Hp _]. done. }
    split; [|done]. unfold lookup_cache.
    destruct (list_find _ _) as [[i p]|] eqn:E; [|done].
    apply list_find_Some in E as (Hi & Hp & _).
    destruct Hkeys. unfold keys. rewrite <- Hp.
    eapply list_elem_of_fmap_2, list_elem_of_lookup_2. done.
  - intros rq r. unfold caches_match. case_bool_decide; [|done].
    intros Hm. apply match_url_Some in Hm as (n & c & Hin & Hc).
    apply list_elem_of_filter in Hin as [Hn Hin]. simpl in Hn. subst n.
    eauto.
Qed.

Lemma activate_keeps_current_only_witness :
  lookup_cache "race-control-v0" (activate two_generations) = None
  ∧ "race-control-v0" ∉ keys (activate two_generations).
Proof.
  apply (proj1 (proj2 (activate_keeps_current_only two_generations))).
  discriminate.
Defined.

End WorkerSpec.

(** ** More on the timer *)
Module TimerMore.
Import Timer.

Lemma append_cons c (s t : string) : String c s +:+ t = String c (s +:+ t).
Proof. reflexivity. Qed.

Lemma length_app (s1 s2 : string) :
  String.length (s1 +:+ s2) = (String.length s1 + String.length s2)%nat.
Proof.
  induction s1 as [|c s1 IH]; [done|].
  rewrite append_cons. simpl. by rewrite IH.
Qed.

Lemma padZero_two n :
  0 ≤ n < 100 → String.length (padZero n) = 2%nat.
Proof.
  intros Hn.
  assert (Forall (λ n, String.length (padZero n) = 2%nat) (seqZ 0 100)) as H.
  { apply (bool_decide_unpack _). vm_compute. exact I. }
  eapply Forall_forall in H; [exact H|]. apply elem_of_seqZ. lia.
Qed.

(** X1.  For an elapsed time below one hundred hours, [formatTime] splits
    the whole seconds into hours below 100, minutes below 60 and seconds
    below 60 that add up to the elapsed time in whole seconds, and the clock
    string HH:MM:SS it returns has exactly eight characters. *)
Theorem formatTime_clock t :
  0 ≤ t < 360000000 →
  0 ≤ hours t < 100 ∧ 0 ≤ minutes t < 60 ∧ 0 ≤ seconds t < 60
  ∧ hours t * 3600 + minutes t * 60 + seconds t = t / 1000
  ∧ String.length (formatTime t) = 8%nat.
Proof.
  intros Ht. unfold hours, minutes, seconds, totalSeconds.
  assert (0 ≤ t / 1000 < 360000) as Hs by (Z.div_mod_to_equations; lia).
  rewrite !Z.rem_mod_nonneg by lia.
  assert (0 ≤ t / 1000 / 3600 < 100
          ∧ 0 ≤ (t / 1000) `mod` 3600 / 60 < 60
          ∧ 0 ≤ (t / 1000) `mod` 60 < 60
          ∧ t / 1000 / 3600 * 3600 + (t / 1000) `mod` 3600 / 60 * 60
            + (t / 1000) `mod` 60 = t / 1000) as (H1 & H2 & H3 & H4).
  { generalize (t / 1000) Hs. intros ts Hts.
    pose proof (Z.div_mod ts 3600 ltac:(lia)).
    pose proof (Z.mod_pos_bound ts 3600 ltac:(lia)).
    pose proof (Z.div_mod (ts `mod` 3600) 60 ltac:(lia)).
    pose proof (Z.mod_pos_bound (ts `mod` 3600) 60 ltac:(lia)).
    pose proof (Z.mod_pos_bound ts 60 ltac:(lia)).
    pose proof (Z.div_mod ts 60 ltac:(lia)).
    repeat split; try lia. }
  repeat split; try lia.
  unfold formatTime, hours, minutes, seconds, totalSeconds.
  rewrite !Z.rem_mod_nonneg by lia.
  rewrite !length_app, !padZero_two by lia. done.
Qed.

Lemma formatTime_clock_witness :
  String.length (formatTime 3725000) = 8%nat
  ∧ hours 3725000 * 3600 + minutes 3725000 * 60 + seconds 3725000 = 3725.
Proof.
  destruct (formatTime_clock 3725000 ltac:(lia)) as (_ & _ & _ & H1 & H2).
  split; assumption.
Defined.

Lemma digit_not_space d : is_space (pretty_N_char d) = false.
Proof. unfold pretty_N_char. by repeat case_match. Qed.

Lemma pretty_N_go_head x : ∀ s,
  (0 < x)%N → ∃ d rest, pretty_N_go x s = String (pretty_N_char d) rest.
Proof.
  induction (N.lt_wf_0 x) as [x _ IH]. intros s Hx.
  rewrite pretty_N_go_step by done.
  destruct (decide (x `div` 10 = 0)%N) as [E|E].
  - rewrite E, pretty_N_go_0. eauto.
  - apply IH; [apply N.div_lt; lia|by apply N.neq_0_lt_0].
Qed.

Lemma pretty_head (x : Z) :
  ∃ c rest, pretty x = String c rest ∧ is_space c = false.
Proof.
  assert (∀ p, ∃ c rest, pretty (N.pos p) = String c rest
                         ∧ is_space c = false) as Hpos.
  { intros p. unfold pretty, pretty_N. rewrite decide_False by done.
    destruct (pretty_N_go_head (N.pos p) "" ltac:(lia)) as (d & rest & ->).
    eauto using digit_not_space. }
  destruct x as [|p|p].
  - by exists "0"%char, "".
  - apply Hpos.
  - exists "-"%char, (pretty (N.pos p)). done.
Qed.

Lemma trimEnd_s (a : string) : trimEnd (a +:+ "s") = a +:+ "s".
Proof.
  induction a as [|c a IH]; [done|].
  rewrite append_cons. simpl. rewrite IH.
  destruct a; by rewrite ?append_cons.
Qed.

Lemma append_assoc (s1 s2 s3 : string) :
  (s1 +:+ s2) +:+ s3 = s1 +:+ (s2 +:+ s3).
Proof.
  induction s1 as [|c s1 IH]; [done|]. rewrite !append_cons. by f_equal.
Qed.

Lemma ends_s_app (a b : string) :
  (∃ b', b = b' +:+ "s") → ∃ b', a +:+ b = b' +:+ "s".
Proof. intros [b' ->]. exists (a +:+ b'). by rewrite append_assoc. Qed.

Lemma trim_number (x : Z) (b : string) :
  (∃ b', b = b' +:+ "s") → trim (pretty x +:+ b) = pretty x +:+ b.
Proof.
  intros Hb. destruct (pretty_head x) as (c & rest & Hp & Hc).
  destruct (ends_s_app (pretty x) b Hb) as [whole Hw].
  unfold trim. rewrite Hp, append_cons in Hw |- *.
  assert (trimStart (String c (rest +:+ b)) = String c (rest +:+ b)) as ->
    by (simpl; by rewrite Hc).
  rewrite Hw. apply trimEnd_s.
Qed.

(** X2.  The application's [formatTimeDisplay] and the timer's
    [formatTimeVerbose] return the same string for every number of
    milliseconds. *)
Theorem formatTimeDisplay_is_verbose t :
  formatTimeDisplay (Some t) = formatTimeVerbose t.
Proof.
  unfold formatTimeDisplay, formatTimeVerbose.
  assert (∃ b', pretty (seconds t) +:+ "s" = b' +:+ "s") as Hs by eauto.
  assert (∀ s : string, "" +:+ s = s) as Hnil by done.
  destruct (0 <? hours t) eqn:Eh.
  - rewrite orb_true_r, !Hnil, !append_assoc. symmetry. apply trim_number.
    apply (ends_s_app "h "), (ends_s_app (pretty (minutes t))),
      (ends_s_app "m "), Hs.
  - rewrite orb_false_r. destruct (0 <? minutes t) eqn:Em.
    + rewrite !Hnil, !append_assoc. symmetry. apply trim_number.
      apply (ends_s_app "m "), Hs.
    + rewrite !Hnil. symmetry. apply trim_number. by exists "".
Qed.

(** X3.  After any sequence of [start], [stop] and [reset] calls on a new
    timer, the scheduled intervals are exactly the timer's own interval when
    it runs and none when it does not; a running timer has a start time and
    [recordFinish] returns the current time, a stopped timer's
    [recordFinish] returns null. *)
Theorem one_interval_while_running cs :
  let t := calls cs new in
  scheduled t = (if isRunning t then option_list (timerInterval t) else [])
  ∧ (isRunning t = true →
       is_Some (timerInterval t) ∧ is_Some (startTime t)
       ∧ ∀ now, recordFinish now t = Some now)
  ∧ (isRunning t = false → ∀ now, recordFinish now t = None).
Proof.
  simpl.
  assert (∀ t,
    (scheduled t = (if isRunning t then option_list (timerInterval t) else [])
     ∧ (isRunning t = true →
          is_Some (timerInterval t) ∧ is_Some (startTime t))) →
    scheduled (calls cs t)
    = (if isRunning (calls cs t)
       then option_list (timerInterval (calls cs t)) else [])
    ∧ (isRunning (calls cs t) = true →
         is_Some (timerInterval (calls cs t))
         ∧ is_Some (startTime (calls cs t)))) as Hinv.
  { unfold calls. induction cs as [|c cs IH]; intros t Ht; [done|].
    simpl. apply IH. destruct Ht as [Hsch Hrun].
    assert (∀ t, scheduled t
                 = (if isRunning t then option_list (timerInterval t) else [])
               → (isRunning t = true → is_Some (timerInterval t)) →
               scheduled (stop t) = [] ∧ isRunning (stop t) = false) as Hstop.
    { intros t0 H0 H1. unfold stop.
      destruct (isRunning t0) eqn:Er; simpl; [|done].
      destruct (H1 eq_refl) as [h Hh]. rewrite H0, Hh. simpl.
      rewrite filter_cons. by destruct (decide (h ≠ h)). }
    destruct c as [arg now| |]; simpl.
    - unfold start. destruct (isRunning t) eqn:Er; simpl; [by rewrite Er|].
      rewrite Hsch. split; [done|eauto].
    - destruct (Hstop t Hsch (λ H, proj1 (Hrun H))) as [H1 H2].
      by rewrite H1, H2.
    - unfold reset. simpl.
      destruct (Hstop t Hsch (λ H, proj1 (Hrun H))) as [H1 H2].
      by rewrite H1, H2. }
  assert (isRunning new = true →
          is_Some (timerInterval new) ∧ is_Some (startTime new)) as Hnew
    by discriminate.
  destruct (Hinv new (conj eq_refl Hnew)) as [H1 H2].
  split; [done|]. unfold recordFinish. split.
  - intros Hr. destruct (H2 Hr). by rewrite Hr.
  - intros Hr. by rewrite Hr.
Qed.

Lemma one_interval_while_running_witness :
  recordFinish 12 (calls [Start None 5; Stop; Start (Some 7) 9] new)
  = Some 12
  ∧ recordFinish 12 (calls [Start None 5; Stop; Start (Some 7) 9; Reset] new)
    = None.
Proof.
  split.
  - apply (proj1 (proj2 (one_interval_while_running
                           [Start None 5; Stop; Start (Some 7) 9]))).
    reflexivity.
  - apply (proj2 (proj2 (one_interval_while_running
                           [Start None 5; Stop; Start (Some 7) 9; Reset]))).
    reflexivity.
Defined.

End TimerMore.

(** ** More on the local queue *)
Module OfflineMore.
Import Offline OfflineSpec.

Lemma storeResult_same_race c d r :
  getStoredData c = Some d → data_raceId d = raceId r →
  getStoredData (storeResult r c)
  = Some {| data_raceId := data_raceId d;
            data_results := data_results d ++ [r] |}.
Proof.
  intros Hd Heq. unfold storeResult. rewrite Hd. simpl.
  rewrite bool_decide_eq_false_2 by (intros H; by apply H).
  apply getStoredData_storeRaceData.
Qed.

Lemma storeResult_first c r :
  getStoredData c = None →
  getStoredData (storeResult r c)
  = Some {| data_raceId := raceId r; data_results := [r] |}.
Proof.
  intros Hd. unfold storeResult. rewrite Hd. simpl.
  rewrite bool_decide_eq_false_2 by (intros H; by apply H).
  apply getStoredData_storeRaceData.
Qed.

(** X4.  Storing a non-empty list of results of one race, one after the
    other, on a store that is empty or holds a record of that race, leaves a
    record of that race whose results are the earlier ones followed by the
    new ones in the order they were stored. *)
Theorem storeResult_fifo rid (l : list Result) : ∀ c,
  Forall (λ r, raceId r = rid) l →
  l ≠ [] →
  match getStoredData c with
  | Some d => data_raceId d = rid
  | None => True
  end →
  getStoredData (foldl (λ c r, storeResult r c) c l)
  = Some {| data_raceId := rid;
            data_results :=
              default [] (data_results <$> getStoredData c) ++ l |}.
Proof.
  induction l as [|r l IH]; intros c Hl Hne Hc; [done|].
  apply Forall_cons in Hl as [Hr Hl]. simpl.
  assert (getStoredData (storeResult r c)
          = Some {| data_raceId := rid;
                    data_results :=
                      default [] (data_results <$> getStoredData c) ++ [r] |})
    as Hstep.
  { destruct (getStoredData c) as [d|] eqn:Ed; simpl.
    - rewrite (storeResult_same_race c d r) by congruence. by rewrite Hc.
    - rewrite storeResult_first by done. by rewrite Hr. }
  destruct l as [|r' l'].
  - simpl. exact Hstep.
  - rewrite IH; [|done|done|by rewrite Hstep].
    rewrite Hstep. simpl. by rewrite <- app_assoc.
Qed.

Lemma storeResult_fifo_witness :
  getStoredData
    (foldl (λ c r, storeResult r c) device
       [finish_101;
        {| raceId := 1; runnerNumber := 102; finishTime := 1700000098000 |}])
  = Some {| data_raceId := 1;
            data_results :=
              [finish_101;
               {| raceId := 1; runnerNumber := 102;
                  finishTime := 1700000098000 |}] |}.
Proof.
  apply (storeResult_fifo 1 _ device).
  - repeat constructor.
  - discriminate.
  - exact I.
Defined.

Lemma checkUnsyncedData_badge c :
  syncStatusHidden (checkUnsyncedData c)
  = negb (hasUnsyncedData (checkUnsyncedData c)
          && isOnline (checkUnsyncedData c)).
Proof. reflexivity. Qed.

Lemma step_badge e p :
  syncStatusHidden (storage p)
  = negb (hasUnsyncedData (storage p) && isOnline (storage p)) →
  syncStatusHidden (storage (step e p))
  = negb (hasUnsyncedData (storage (step e p))
          && isOnline (storage (step e p))).
Proof.
  intros Hp. destruct e as [r| |k o|online|]; simpl.
  - reflexivity.
  - unfold syncResults_begin.
    destruct (isOnline (storage p)) eqn:Eo; simpl;
      [|by rewrite Eo].
    destruct (getStoredData (storage p)) as [d|] eqn:Ed; simpl;
      [destruct (data_results d) eqn:El; simpl|]; by rewrite ?Eo.
  - destruct (inflight p !! k); simpl; [|done].
    destruct o as [st|]; simpl; [destruct (ok st)|]; done.
  - destruct online; reflexivity.
  - reflexivity.
Qed.

(** X5.  From construction on and after any sequence of page events
    (recording, connection changes, sync calls, settling uploads), the sync
    badge is hidden exactly when it is not the case that the queue has
    unsynchronised data and the device is online. *)
Theorem badge_follows_queue ls generated online es :
  let c := storage (run es {| storage := construct ls generated online;
                              inflight := [] |}) in
  syncStatusHidden c = negb (hasUnsyncedData c && isOnline c).
Proof.
  simpl. unfold run.
  assert (∀ p, syncStatusHidden (storage p)
               = negb (hasUnsyncedData (storage p) && isOnline (storage p)) →
          syncStatusHidden (storage (foldl (λ p e, step e p) p es))
          = negb (hasUnsyncedData (storage (foldl (λ p e, step e p) p es))
                  && isOnline (storage (foldl (λ p e, step e p) p es))))
    as Hrun.
  { induction es as [|e es IH]; intros p Hp; [done|].
    simpl. apply IH. by apply step_badge. }
  apply Hrun. simpl. unfold construct.
  destruct (ls !! deviceKey) as [[s|d]|]; [case_bool_decide| |]; reflexivity.
Qed.

Lemma different_keys : storageKey ≠ deviceKey.
Proof. discriminate. Qed.

Lemma step_scoped e p : scoped (storage p) → scoped (storage (step e p)).
Proof.
  intros Hp. destruct e as [r| |k o|online|]; simpl.
  - by apply storeResult_scoped.
  - destruct (syncResults_begin (storage p)) as [c s] eqn:E.
    apply syncResults_begin_pure in E.
    destruct s; simpl; intros d Hd; apply Hp;
      unfold getStoredData in *; by rewrite <- E.
  - destruct (inflight p !! k); simpl; [|done].
    destruct o as [st|]; simpl; [destruct (ok st)|]; simpl; try done.
    intros d. unfold getStoredData. simpl. by rewrite lookup_delete_eq.
  - destruct online; done.
  - intros d. unfold getStoredData. simpl. by rewrite lookup_delete_eq.
Qed.

Lemma step_token e p :
  localStorage (storage (step e p)) !! deviceKey
  = localStorage (storage p) !! deviceKey.
Proof.
  destruct e as [r| |k o|online|]; simpl.
  - by rewrite lookup_insert_ne by apply different_keys.
  - destruct (syncResults_begin (storage p)) as [c s] eqn:E.
    apply syncResults_begin_pure in E. destruct s; simpl; by rewrite E.
  - destruct (inflight p !! k); simpl; [|done].
    destruct o as [st|]; simpl; [destruct (ok st)|]; simpl; try done.
    by rewrite lookup_delete_ne by apply different_keys.
  - destruct online; done.
  - by rewrite lookup_delete_ne by apply different_keys.
Qed.

Lemma step_deviceId e p : deviceId (storage (step e p)) = deviceId (storage p).
Proof.
  destruct e as [r| |k o|online|]; simpl; try done.
  - unfold syncResults_begin.
    destruct (isOnline (storage p)); simpl; [|done].
    destruct (getStoredData (storage p)) as [d|]; [|done].
    by destruct (data_results d).
  - destruct (inflight p !! k); simpl; [|done].
    destruct o as [st|]; simpl; [destruct (ok st)|]; done.
  - by destruct online.
Qed.

(** X6.  If every entry of the stored record carries the record's raceId,
    this still holds after any sequence of page events. *)
Theorem queue_stays_scoped es p :
  scoped (storage p) → scoped (storage (run es p)).
Proof.
  unfold run. revert p. induction es as [|e es IH]; intros p Hp; [done|].
  simpl. apply IH. by apply step_scoped.
Qed.

Lemma queue_stays_scoped_witness :
  scoped (storage (run [RecordFinish finish_101; RecordFinish finish_7;
                        SyncNow; Connection false] 
                   {| storage := device; inflight := [] |})).
Proof.
  apply queue_stays_scoped. intros d Hd. discriminate Hd.
Defined.

Lemma run_token es : ∀ p,
  deviceId (storage (run es p)) = deviceId (storage p)
  ∧ localStorage (storage (run es p)) !! deviceKey
    = localStorage (storage p) !! deviceKey.
Proof.
  unfold run. induction es as [|e es IH]; intros p; [done|]. simpl.
  destruct (IH (step e p)) as [-> ->].
  by rewrite step_deviceId, step_token.
Qed.

Lemma construct_token ls generated online :
  generated ≠ "" →
  deviceId (construct ls generated online) ≠ ""
  ∧ localStorage (construct ls generated online) !! deviceKey
    = Some (Token (deviceId (construct ls generated online))).
Proof.
  intros Hg. unfold construct.
  destruct (ls !! deviceKey) as [[s|d]|] eqn:E; simpl.
  - case_bool_decide; simpl; [by rewrite lookup_insert_eq|done].
  - by rewrite lookup_insert_eq.
  - by rewrite lookup_insert_eq.
Qed.

(** X7.  The device id chosen at construction (the stored one, or else a
    newly generated non-empty one) is unchanged by any sequence of page
    events, and a later construction over the same localStorage takes the
    same id whatever it would have generated. *)
Theorem deviceId_survives_restart ls generated online es generated' online' :
  generated ≠ "" →
  let first := construct ls generated online in
  let last := storage (run es {| storage := first; inflight := [] |}) in
  deviceId last = deviceId first
  ∧ deviceId (construct (localStorage last) generated' online')
    = deviceId first.
Proof.
  intros Hg first last.
  destruct (run_token es {| storage := first; inflight := [] |})
    as [Hid Htok].
  destruct (construct_token ls generated online Hg) as [Hne Hfirst].
  fold first in Hne, Hfirst. simpl in Hid, Htok. fold last in Hid, Htok.
  split; [done|]. unfold construct at 1. rewrite Htok, Hfirst.
  by rewrite bool_decide_eq_false_2.
Qed.

Lemma deviceId_survives_restart_witness :
  deviceId (construct (localStorage queued) "device_other" false)
  = "device_k3x9q".
Proof.
  exact (proj2 (deviceId_survives_restart ∅ "device_k3x9q" true
                  [RecordFinish finish_101] "device_other" false
                  ltac:(discriminate))).
Defined.

(** X8.  A result stored while an upload started by [syncResults] is in
    flight joins the queue, while the upload carries the queue as it was
    before; when that upload is answered with an ok status, [clearResults]
    removes the whole record, the new result included. *)
Theorem finish_during_upload_is_dropped p d r st :
  isOnline (storage p) = true →
  getStoredData (storage p) = Some d →
  data_results d ≠ [] →
  ok st = true →
  let u := {| up_raceId := data_raceId d; up_results := data_results d;
              up_deviceId := deviceId (storage p) |} in
  let p1 := step (RecordFinish r) (step SyncNow p) in
  inflight p1 = inflight p ++ [u]
  ∧ (∃ d1, getStoredData (storage p1) = Some d1 ∧ r ∈ data_results d1)
  ∧ getStoredData
      (storage (step (Settles (length (inflight p)) (Responded st)) p1))
    = None
  ∧ inflight (step (Settles (length (inflight p)) (Responded st)) p1)
    = inflight p.
Proof.
  intros Ho Hd Hne Hok u p1.
  assert (step SyncNow p
          = {| storage := storage p; inflight := inflight p ++ [u] |}) as H1.
  { unfold step. by rewrite (syncResults_begin_ready _ d Ho Hd Hne). }
  assert (inflight p1 = inflight p ++ [u]) as Hin by (unfold p1; by rewrite H1).
  split; [done|]. split; [|split].
  - unfold p1. rewrite H1. simpl.
    destruct (localStorage_storeResult r (storage p))
      as (d1 & Hls & _ & before & Hres).
    exists d1. split.
    + unfold getStoredData. rewrite Hls. by rewrite lookup_insert_eq.
    + rewrite Hres. apply elem_of_app. right. left.
  - unfold step at 1. rewrite Hin.
    rewrite lookup_app_r, Nat.sub_diag by done. simpl. rewrite Hok. simpl.
    unfold getStoredData. simpl. by rewrite lookup_delete_eq.
  - unfold step at 1. rewrite Hin.
    rewrite lookup_app_r, Nat.sub_diag by done. simpl.
    rewrite (delete_middle (inflight p) [] u). by rewrite app_nil_r.
Qed.

Lemma finish_during_upload_is_dropped_witness :
  getStoredData
    (storage (run [SyncNow;
                   RecordFinish {| raceId := 1; runnerNumber := 102;
                                   finishTime := 1700000098000 |};
                   Settles 0 (Responded 200)]
                queued_page))
  = None.
Proof.
  apply (finish_during_upload_is_dropped queued_page
           {| data_raceId := 1; data_results := [finish_101] |}
           {| raceId := 1; runnerNumber := 102;
              finishTime := 1700000098000 |}
           200 eq_refl eq_refl ltac:(discriminate) eq_refl).
Defined.
End OfflineMore.

(** ** More on the REST handlers *)
Module ServerMore.
Import Server ServerSpec.

Lemma by_finishTime_total : Total by_finishTime.
Proof. intros a b. unfold by_finishTime. lia. Qed.

Lemma by_date_desc_total : Total by_date_desc.
Proof.
  intros a b. unfold by_date_desc.
  destruct (String.leb_total (date b) (date a)) as [H|H]; rewrite H; simpl; auto.
Qed.

(** X9.  With race ids within the AUTOINCREMENT counter, POST /api/races
    with a non-empty name and date answers 200 with the next id, name and
    date; GET /api/races/:id for that id then returns the row with status
    pending and no startTime; the other races and the results table are
    unchanged. *)
Theorem created_race_is_pending n d db :
  Forall (λ r, id r ≤ races_seq (view db)) (races (view db)) →
  n ≠ "" → d ≠ "" →
  let new_id := races_seq (view db) + 1 in
  let db' := (handle (PostRace (Some n) (Some d)) db).1 in
  (handle (PostRace (Some n) (Some d)) db).2
  = respond 200 (Created new_id n d)
  ∧ handle (GetRace new_id) db'
    = (db', respond 200 (RaceRow {| id := new_id; name := n; date := d;
                                    startTime := None; status := pending |}))
  ∧ (∀ i, i ≠ new_id → find_race i (view db') = find_race i (view db))
  ∧ results (view db') = results (view db).
Proof.
  intros Hids Hn Hd new_id db'.
  destruct n as [|a n']; [done|]. destruct d as [|b d']; [done|].
  set (n := String a n') in *. set (d := String b d') in *.
  assert (db' = write (insert_race n d) db) as Hdb' by reflexivity.
  assert (∀ i, find_race i (view db')
               = match find_race i (view db) with
                 | Some r => Some r
                 | None => if bool_decide (new_id = i)
                           then Some {| id := new_id; name := n; date := d;
                                        startTime := None; status := pending |}
                           else None
                 end) as Hfind.
  { intros i. rewrite Hdb', view_write.
    pose proof (find_race_after i (PostRace (Some n) (Some d)) (view db)) as H.
    unfold n, d in *. simpl in H. rewrite H.
    by destruct (find_race i (view db)). }
  split; [done|]. split; [|split].
  - simpl. rewrite Hfind.
    destruct (find_race new_id (view db)) as [r|] eqn:E.
    + apply find_race_bound in E; [|done]. unfold new_id in E. lia.
    + by rewrite bool_decide_eq_true_2.
  - intros i Hi. rewrite Hfind.
    destruct (find_race i (view db)); [done|].
    by rewrite bool_decide_eq_false_2.
  - by rewrite Hdb', view_write.
Qed.

Lemma created_race_is_pending_witness :
  handle (GetRace 2)
    (handle (PostRace (Some "10K") (Some "2024-06-01")) one_race).1
  = ((handle (PostRace (Some "10K") (Some "2024-06-01")) one_race).1,
     respond 200 (RaceRow {| id := 2; name := "10K"; date := "2024-06-01";
                             startTime := None; status := pending |})).
Proof.
  apply (created_race_is_pending "10K" "2024-06-01" one_race).
  - repeat constructor. simpl. lia.
  - discriminate.
  - discriminate.
Defined.

Lemma filter_filter_ne {A} (f : A → Z) (i j : Z) (l : list A) :
  filter (λ r, f r = j) (filter (λ r, f r ≠ i) l)
  = if bool_decide (j = i) then [] else filter (λ r, f r = j) l.
Proof.
  induction l as [|r l IH]; [by case_bool_decide|].
  rewrite !filter_cons.
  destruct (decide (f r ≠ i)) as [Hi|Hi].
  - rewrite filter_cons, IH.
    destruct (decide (f r = j)) as [Hj|Hj]; [|done].
    rewrite bool_decide_eq_false_2 by congruence. done.
  - rewrite IH. apply dec_stable in Hi.
    destruct (decide (f r = j)) as [Hj|Hj]; [|done].
    rewrite bool_decide_eq_true_2 by congruence. done.
Qed.

Lemma update_none i f l :
  matching i l = [] →
  (λ r, if bool_decide (id r = i) then f r else r) <$> l = l.
Proof.
  unfold matching. induction l as [|r l IH]; [done|].
  rewrite filter_cons. destruct (decide (id r = i)) as [Hi|Hi]; [done|].
  intros Hl. rewrite fmap_cons, IH by done.
  by rewrite bool_decide_eq_false_2.
Qed.

(** X10.  On a connection with no transaction pending, DELETE /api/races/:id
    for an id with no row answers 404 and leaves the database as it was; for
    an existing race it answers 200, commits, and afterwards neither the
    race nor any result of that race exists, while every other race and its
    results are unchanged. *)
Theorem delete_removes_race_and_results raceId db :
  transaction db = None →
  let db' := (handle (DeleteRace raceId) db).1 in
  let resp := (handle (DeleteRace raceId) db).2 in
  (find_race raceId (view db) = None →
     db' = db ∧ resp = respond 404 (Error "Race not found"))
  ∧ (is_Some (find_race raceId (view db)) →
     resp = respond 200 Deleted
     ∧ transaction db' = None
     ∧ find_race raceId (view db') = None
     ∧ filter (λ r, row_raceId r = raceId) (results (view db')) = []
     ∧ ∀ j, j ≠ raceId →
         find_race j (view db') = find_race j (view db)
         ∧ filter (λ r, row_raceId r = j) (results (view db'))
           = filter (λ r, row_raceId r = j) (results (view db))).
Proof.
  destruct db as [t [t'|]]; [done|]. intros _ db' resp.
  unfold db', resp, view. simpl. unfold view, changes. simpl. split.
  - intros Hnone. unfold find_race in Hnone.
    destruct (matching raceId (races t)); [|done]. done.
  - intros [r Hr]. unfold find_race in Hr.
    destruct (matching raceId (races t)) as [|r0 m] eqn:Em; [done|]. simpl.
    split; [done|]. split; [done|]. split; [|split].
    + unfold find_race. simpl. rewrite matching_delete.
      by rewrite bool_decide_eq_true_2.
    + rewrite filter_filter_ne. by rewrite bool_decide_eq_true_2.
    + intros j Hj. split.
      * unfold find_race. simpl. rewrite matching_delete.
        by rewrite bool_decide_eq_false_2.
      * rewrite filter_filter_ne. by rewrite bool_decide_eq_false_2.
Qed.

Lemma delete_removes_race_and_results_witness :
  (handle (DeleteRace 1) (after race_day one_race)).2 = respond 200 Deleted
  ∧ (handle (DeleteRace 7) (after race_day one_race)).1
    = after race_day one_race.
Proof.
  split.
  - apply (proj2 (delete_removes_race_and_results 1 (after race_day one_race)
                    eq_refl)).
    vm_compute. eauto.
  - apply (proj1 (delete_removes_race_and_results 7 (after race_day one_race)
                    eq_refl)).
    reflexivity.
Defined.

(** X11.  GET /api/races/:id/results never changes the database and answers
    200 with the race's result rows, each exactly once, in ascending
    finishTime order; raceTime is finishTime minus the race's startTime when
    the race has a non-zero startTime, and null otherwise. *)
Theorem results_sorted_with_raceTime raceId db :
  ∃ rows,
    handle (GetResults raceId) db = (db, respond 200 (ResultList rows))
    ∧ Sorted (λ a b, p_finishTime a ≤ p_finishTime b) rows
    ∧ rows ≡ₚ process (startTime_of raceId db)
               <$> filter (λ r, row_raceId r = raceId) (results (view db))
    ∧ match startTime_of raceId db with
      | Some t0 =>
          if bool_decide (t0 = 0)
          then Forall (λ p, p_raceTime p = None) rows
          else Forall (λ p, p_raceTime p = Some (p_finishTime p - t0)) rows
      | None => Forall (λ p, p_raceTime p = None) rows
      end.
Proof.
  eexists. split; [reflexivity|]. unfold select_results. simpl.
  fold (startTime_of raceId db). split; [|split].
  - eapply Sorted_fmap; [|apply (@Sorted_merge_sort _ by_finishTime _
                                   by_finishTime_total)].
    intros a b Hab. exact Hab.
  - by rewrite merge_sort_Permutation.
  - destruct (startTime_of raceId db) as [t0|].
    + case_bool_decide as Ht; apply Forall_fmap, Forall_true; intros r;
        simpl; unfold raceTime, truthy.
      * subst t0. done.
      * apply Z.eqb_neq in Ht. by rewrite Ht.
    + apply Forall_fmap, Forall_true. done.
Qed.

Lemma Sorted_weaken {A} (R1 R2 : relation A) l :
  (∀ x y, R1 x y → R2 x y) → Sorted R1 l → Sorted R2 l.
Proof.
  intros HR. induction 1 as [|x l _ IH Hd]; constructor; [done|].
  destruct Hd; constructor; auto.
Qed.

(** X12.  GET /api/races never changes the database and answers 200 with all
    races, each exactly once, in descending order of the date string. *)
Theorem races_listed_by_date db :
  ∃ l,
    handle GetRaces db = (db, respond 200 (RaceList l))
    ∧ l ≡ₚ races (view db)
    ∧ Sorted (λ a b, String.leb (date b) (date a) = true) l.
Proof.
  eexists. split; [reflexivity|]. split.
  - apply merge_sort_Permutation.
  - eapply Sorted_weaken;
      [|apply (@Sorted_merge_sort _ by_date_desc _ by_date_desc_total)].
    intros a b. unfold by_date_desc. apply Is_true_true.
Qed.

Lemma matching_nil_find i t : find_race i t = None → matching i (races t) = [].
Proof. unfold find_race. by destruct (matching i (races t)). Qed.

(** X13.  PUT start sets the startTime to the request time and the status to
    active, PUT end sets the status to completed, both on the addressed race
    only; each answers 200 when the race exists and 404 with the database
    unchanged when it does not; other races and the results table are
    untouched. *)
Theorem start_end_effect i now db :
  let s := handle (PutStart i now) db in
  let e := handle (PutEnd i) db in
  find_race i (view s.1) = set_started now <$> find_race i (view db)
  ∧ find_race i (view e.1) = set_completed <$> find_race i (view db)
  ∧ code s.2 = Some (if find_race i (view db) is Some _ then 200 else 404)
  ∧ code e.2 = Some (if find_race i (view db) is Some _ then 200 else 404)
  ∧ (find_race i (view db) = None → s.1 = db ∧ e.1 = db)
  ∧ (∀ j, j ≠ i →
       find_race j (view s.1) = find_race j (view db)
       ∧ find_race j (view e.1) = find_race j (view db))
  ∧ results (view s.1) = results (view db)
  ∧ results (view e.1) = results (view db).
Proof.
  intros s e.
  assert (s.1 = write (update_races i (set_started now)) db) as Hs.
  { unfold s. simpl. by case_bool_decide. }
  assert (e.1 = write (update_races i set_completed) db) as He.
  { unfold e. simpl. by case_bool_decide. }
  pose proof (λ j, find_race_after j (PutStart i now) (view db)) as Fs.
  pose proof (λ j, find_race_after j (PutEnd i) (view db)) as Fe.
  simpl in Fs, Fe. rewrite Hs, He, !view_write.
  split; [by rewrite Fs, bool_decide_eq_true_2|].
  split; [by rewrite Fe, bool_decide_eq_true_2|].
  split; [|split; [|split; [|split]]].
  - unfold s. simpl.
    case_bool_decide as Hc; simpl.
    + apply changes_zero in Hc. by rewrite Hc.
    + destruct (find_race i (view db)) eqn:E; [done|].
      by apply changes_zero in E.
  - unfold e. simpl.
    case_bool_decide as Hc; simpl.
    + apply changes_zero in Hc. by rewrite Hc.
    + destruct (find_race i (view db)) eqn:E; [done|].
      by apply changes_zero in E.
  - intros Hnone. apply matching_nil_find in Hnone.
    destruct db as [t [t'|]]; unfold write, update_races; simpl in *;
      rewrite !update_none by done; by destruct t, t' || by destruct t.
  - intros j Hj. by rewrite Fs, Fe, !bool_decide_eq_false_2.
  - done.
Qed.

Lemma start_end_effect_witness :
  find_race 1 (view (handle (PutEnd 1)
                       (handle (PutStart 1 1700000000000) one_race).1).1)
  = Some {| id := 1; name := "5K Fun Run"; date := "2024-05-01";
            startTime := Some 1700000000000; status := completed |}
  ∧ (handle (PutStart 9 1700000000000) one_race).1 = one_race.
Proof.
  split.
  - rewrite (proj1 (proj2 (start_end_effect 1 0
               (handle (PutStart 1 1700000000000) one_race).1))).
    reflexivity.
  - apply (proj1 (proj2 (proj2 (proj2 (proj2
             (start_end_effect 9 1700000000000 one_race)))))).
    reflexivity.
Defined.

Lemma insert_all_appends raceId dev now entries : ∀ t,
  forallb entry_ok entries = true →
  races (insert_all raceId dev now entries t) = races t
  ∧ ∃ rows,
      results (insert_all raceId dev now entries t) = results t ++ rows
      ∧ Forall (λ r, row_raceId r = raceId ∧ row_uploadedBy r = dev
                     ∧ row_uploadedAt r = now
                     ∧ results_seq t < row_id r) rows
      ∧ (λ r, (Some (row_runnerNumber r), Some (row_finishTime r))) <$> rows
        = (λ e, (entry_runnerNumber e, entry_finishTime e)) <$> entries.
Proof.
  induction entries as [|e rest IH]; intros t Hok; simpl.
  - split; [done|]. exists []. by rewrite app_nil_r.
  - simpl in Hok. apply andb_prop in Hok as [He Hrest].
    destruct (IH (insert_result raceId (default 0 (entry_runnerNumber e))
                    (default 0 (entry_finishTime e)) dev now t) Hrest)
      as (Hr & rows & Hrows & Hall & Hvals).
    split; [by rewrite Hr|].
    eexists (_ :: rows). split; [|split].
    + rewrite Hrows. simpl. by rewrite <- app_assoc.
    + constructor; [simpl; repeat split; lia|].
      eapply Forall_impl; [exact Hall|]. simpl. intros r (?&?&?&?).
      repeat split; try done. lia.
    + rewrite !fmap_cons, Hvals. f_equal.
      unfold entry_ok, truthy in He. apply andb_prop in He as [H1 H2].
      by destruct (entry_runnerNumber e), (entry_finishTime e).
Qed.

Lemma valid_batch_handled raceId entries dev now db :
  transaction db = None →
  forallb entry_ok entries = true →
  handle (PostResults raceId (Array entries) dev now) db
  = ({| committed := insert_all raceId dev now entries (view db);
        transaction := None |},
     respond 200 (Saved (length entries))).
Proof.
  intros Hnone Hok. simpl. rewrite (begin_settled db Hnone).
  rewrite insert_each_valid by done.
  rewrite commit_open by (apply open_write; simpl; eauto).
  rewrite view_write. unfold view. by rewrite Hnone.
Qed.

(** X14.  On a connection with no transaction pending, a results batch in
    which every entry has a truthy runnerNumber and finishTime is answered
    200 with the batch length, leaves no transaction open and the races
    unchanged, and appends one row per entry, in order, with the entry's
    runner number and finish time, the request's race id, device id and
    upload time, and an id above the previous counter. *)
Theorem valid_batch_saved raceId entries dev now db :
  transaction db = None →
  forallb entry_ok entries = true →
  let db' := (handle (PostResults raceId (Array entries) dev now) db).1 in
  (handle (PostResults raceId (Array entries) dev now) db).2
  = respond 200 (Saved (length entries))
  ∧ transaction db' = None
  ∧ races (view db') = races (view db)
  ∧ ∃ rows,
      results (view db') = results (view db) ++ rows
      ∧ Forall (λ r, row_raceId r = raceId ∧ row_uploadedBy r = dev
                     ∧ row_uploadedAt r = now
                     ∧ results_seq (view db) < row_id r) rows
      ∧ (λ r, (Some (row_runnerNumber r), Some (row_finishTime r))) <$> rows
        = (λ e, (entry_runnerNumber e, entry_finishTime e)) <$> entries.
Proof.
  intros Hnone Hok db'.
  unfold db'. rewrite (valid_batch_handled _ _ _ _ _ Hnone Hok). simpl.
  split; [done|]. split; [done|].
  unfold view at 1 3. simpl. by apply insert_all_appends.
Qed.

Lemma valid_batch_saved_witness :
  (handle (PostResults 1 single_batch (Some "device_k3x9q") 1700000200000)
     one_race).2 = respond 200 (Saved 1)
  ∧ (handle (PostResults 1 (Array []) None 1700000200000) one_race)
    = (one_race, respond 200 (Saved 0)).
Proof.
  split.
  - apply (valid_batch_saved 1
             [ {| entry_runnerNumber := Some 101;
                  entry_finishTime := Some 1700000125000 |} ]
             (Some "device_k3x9q") 1700000200000 one_race eq_refl eq_refl).
  - pose proof (valid_batch_saved 1 [] None 1700000200000 one_race
                  eq_refl eq_refl) as [H _].
    apply injective_projections; [reflexivity|exact H].
Defined.

Lemma insert_each_stops raceId dev now good bad rest : ∀ db,
  forallb entry_ok good = true → entry_ok bad = false →
  insert_each raceId dev now (good ++ bad :: rest) db
  = (write (insert_all raceId dev now good) db, true).
Proof.
  induction good as [|e good IH]; intros db Hgood Hbad; simpl.
  - by rewrite Hbad, write_id.
  - simpl in Hgood. apply andb_prop in Hgood as [He Hgood].
    rewrite He, IH by done. by rewrite write_write.
Qed.

(** X15.  On a connection with no transaction pending, a results batch whose
    first invalid entry comes after a valid prefix is answered 400; the
    committed data are unchanged, but the transaction stays open holding the
    rows of the valid prefix: the handler neither commits nor rolls back. *)
Theorem invalid_batch_leaves_transaction raceId good bad rest dev now db :
  transaction db = None →
  forallb entry_ok good = true →
  entry_ok bad = false →
  handle (PostResults raceId (Array (good ++ bad :: rest)) dev now) db
  = ({| committed := committed db;
        transaction := Some (insert_all raceId dev now good (committed db)) |},
     respond 400
       (Error "Runner number and finish time are required for each result")).
Proof.
  destruct db as [t [t'|]]; [done|]. intros _ Hgood Hbad. simpl.
  by rewrite insert_each_stops.
Qed.

Lemma invalid_batch_leaves_transaction_witness :
  committed (handle (PostResults 1 broken_batch (Some "device_k3x9q")
                       1700000200000) one_race).1
  = committed one_race.
Proof.
  pose proof (invalid_batch_leaves_transaction 1
                [ {| entry_runnerNumber := Some 101;
                     entry_finishTime := Some 1700000125000 |} ]
                {| entry_runnerNumber := Some 102; entry_finishTime := None |}
                [] (Some "device_k3x9q") 1700000200000 one_race
                eq_refl eq_refl eq_refl) as H.
  change (Array _) with broken_batch in H. rewrite H. reflexivity.
Defined.

End ServerMore.

(** ** More on synchronisation rounds *)
Module SyncMore.
Import Offline OfflineSpec Sync SyncSpec.

Lemma entries_valid (l : list Result) :
  Forall (λ r, runnerNumber r ≠ 0 ∧ finishTime r ≠ 0) l →
  forallb Server.entry_ok (entry_of <$> l) = true.
Proof.
  induction 1 as [|r l [H1 H2] _ IH]; [done|].
  rewrite fmap_cons. cbn [forallb]. rewrite IH.
  unfold Server.entry_ok, truthy. simpl.
  apply Z.eqb_neq in H1, H2. by rewrite H1, H2.
Qed.

Lemma upload_accepted u now srv :
  Server.transaction srv = None →
  Forall (λ r, runnerNumber r ≠ 0 ∧ finishTime r ≠ 0) (up_results u) →
  Server.handle (request_of u now) srv
  = ({| Server.committed :=
          Server.insert_all (up_raceId u) (Some (up_deviceId u)) now
            (entry_of <$> up_results u) (Server.view srv);
        Server.transaction := None |},
     Server.respond 200 (Server.Saved (length (entry_of <$> up_results u)))).
Proof.
  intros Hnone Hl. apply entries_valid in Hl. unfold request_of.
  by apply ServerMore.valid_batch_handled.
Qed.

(** X16.  When a [syncResults] round returns true, the next round, whatever
    the network does, sends nothing, leaves the server as it is, shows 'No
    data to synchronize' and returns false. *)
Theorem sync_after_success_is_empty
    net controlled now c srv c' srv' net' controlled' now' :
  syncResults net controlled now c srv = (c', srv', true) →
  syncResults net' controlled' now' c' srv'
  = (showNotification "No data to synchronize" c', srv', false).
Proof.
  unfold syncResults at 1.
  destruct (syncResults_begin c) as [c1 [b|u]] eqn:Eb.
  - intros [= <- <- ->]. unfold syncResults_begin in Eb.
    destruct (isOnline c); simpl in Eb; [|done].
    destruct (getStoredData c) as [d|]; [|done].
    by destruct (data_results d).
  - apply syncResults_begin_awaiting in Eb as (-> & Hon & _).
    destruct (transmit net controlled (request_of u now) srv) as [srv1 o].
    destruct (syncResults_resume o c) as [c2 b] eqn:Er.
    intros [= <- <- ->].
    unfold syncResults_resume in Er.
    destruct o as [st|]; [|done]. destruct (ok st); [|done].
    injection Er as <-.
    unfold syncResults, syncResults_begin. simpl. rewrite Hon. simpl.
    unfold getStoredData. simpl. by rewrite lookup_delete_eq.
Qed.

Lemma sync_after_success_is_empty_witness :
  syncResults Delivered true 1700000300000 (online_round).1.1
    (online_round).1.2
  = (showNotification "No data to synchronize" (online_round).1.1,
     (online_round).1.2, false).
Proof.
  apply (sync_after_success_is_empty Delivered true 1700000200000 queued
           Server.one_race (online_round).1.1 (online_round).1.2
           Delivered true 1700000300000).
  reflexivity.
Defined.

Lemma round_unanswered controlled now c d srv :
  isOnline c = true → getStoredData c = Some d → data_results d ≠ [] →
  syncResults Unanswered controlled now c srv
  = (showNotification "Failed to synchronize results" c,
     (Server.handle
        (request_of {| up_raceId := data_raceId d;
                       up_results := data_results d;
                       up_deviceId := deviceId c |} now) srv).1,
     false).
Proof.
  intros Hon Hd Hne. unfold syncResults.
  rewrite (syncResults_begin_ready c d Hon Hd Hne).
  unfold transmit, failure. by destruct controlled.
Qed.

Lemma round_delivered controlled now c d srv :
  Server.transaction srv = None →
  isOnline c = true → getStoredData c = Some d → data_results d ≠ [] →
  Forall (λ r, runnerNumber r ≠ 0 ∧ finishTime r ≠ 0) (data_results d) →
  syncResults Delivered controlled now c srv
  = (showNotification "Results synchronized successfully" (clearResults c),
     {| Server.committed :=
          Server.insert_all (data_raceId d) (Some (deviceId c)) now
            (entry_of <$> data_results d) (Server.view srv);
        Server.transaction := None |},
     true).
Proof.
  intros Hnone Hon Hd Hne Hvalid. unfold syncResults.
  rewrite (syncResults_begin_ready c d Hon Hd Hne).
  unfold transmit. by rewrite upload_accepted.
Qed.

(** X17.  On a server whose connection has no transaction pending: when
    the server handles an upload of a valid queue but the answer is lost,
    [syncResults] returns false and keeps the queue; the next delivered
    sync returns true and empties the queue, and the server then holds the
    rows of the batch twice. *)
Theorem lost_answer_duplicates controlled now now' c d srv :
  Server.transaction srv = None →
  isOnline c = true →
  getStoredData c = Some d →
  data_results d ≠ [] →
  Forall (λ r, runnerNumber r ≠ 0 ∧ finishTime r ≠ 0) (data_results d) →
  let first := syncResults Unanswered controlled now c srv in
  let second := syncResults Delivered controlled now' first.1.1 first.1.2 in
  first.2 = false
  ∧ localStorage first.1.1 = localStorage c
  ∧ second.2 = true
  ∧ getStoredData second.1.1 = None
  ∧ Server.results (Server.view second.1.2)
    = Server.results (Server.view srv)
      ++ rows_for (Server.results_seq (Server.view srv))
           (data_raceId d) (Some (deviceId c)) now (data_results d)
      ++ rows_for (Server.results_seq (Server.view first.1.2))
           (data_raceId d) (Some (deviceId c)) now' (data_results d).
Proof.
  intros Hnone Hon Hd Hne Hvalid first second.
  unfold second, first.
  rewrite (round_unanswered controlled now c d srv Hon Hd Hne).
  cbn [fst snd].
  rewrite upload_accepted by done. cbn [fst snd].
  rewrite (round_delivered controlled now'
             (showNotification "Failed to synchronize results" c) d
             {| Server.committed := _; Server.transaction := None |}
             eq_refl Hon Hd Hne Hvalid).
  cbn [fst snd].
  split; [done|]. split; [done|]. split; [done|].
  split; [unfold getStoredData; simpl; by rewrite lookup_delete_eq|].
  unfold Server.view at 1. cbn [Server.transaction Server.committed default].
  rewrite insert_all_rows.
  unfold Server.view at 1 3. cbn [Server.transaction Server.committed default].
  rewrite insert_all_rows. by rewrite <- app_assoc.
Qed.

Lemma lost_answer_duplicates_witness :
  length (Server.results (Server.view
    (syncResults Delivered true 1700000300000
       (syncResults Unanswered true 1700000200000 queued Server.one_race).1.1
       (syncResults Unanswered true 1700000200000 queued Server.one_race).1.2
    ).1.2)) = 2%nat.
Proof.
  pose proof (lost_answer_duplicates true 1700000200000 1700000300000 queued
                {| data_raceId := 1; data_results := [finish_101] |}
                Server.one_race eq_refl eq_refl eq_refl ltac:(discriminate)
                ltac:(repeat constructor; discriminate))
    as (_ & _ & _ & _ & H).
  rewrite H. reflexivity.
Defined.

End SyncMore.

(** ** More on the service worker *)
Module WorkerMore.
Import Worker WorkerSpec.

Lemma match_url_app u (cs cs' : CacheStorage) :
  match_url u (cs ++ cs')
  = match match_url u cs with
    | Some r => Some r
    | None => match_url u cs'
    end.
Proof.
  induction cs as [|[n c] cs IH]; simpl; [done|].
  by destruct (c !! u).
Qed.

Lemma match_url_open u n (cs : CacheStorage) :
  match_url u (caches_open n cs) = match_url u cs.
Proof.
  unfold caches_open. destruct (lookup_cache n cs); [done|].
  rewrite match_url_app. simpl. rewrite lookup_empty.
  by destruct (match_url u cs).
Qed.

Lemma keys_open n (cs : CacheStorage) : n ∈ keys (caches_open n cs).
Proof.
  unfold caches_open, lookup_cache, keys.
  destruct (list_find _ cs) as [[i p]|] eqn:E; simpl.
  - apply list_find_Some in E as (Hi & Hp & _). rewrite <- Hp.
    eapply list_elem_of_fmap_2, list_elem_of_lookup_2. done.
  - rewrite fmap_app. apply elem_of_app. right. simpl. left.
Qed.

Lemma match_url_put_ne u n rq r (cs : CacheStorage) :
  u ≠ url rq → match_url u (cache_put n rq r cs) = match_url u cs.
Proof.
  intros Hu. unfold cache_put. case_bool_decide; [|done].
  induction cs as [|[m c] cs IH]; [done|].
  rewrite fmap_cons. simpl. rewrite IH.
  case_bool_decide; simpl; [|done].
  by rewrite lookup_insert_ne.
Qed.

Lemma match_url_put_eq n rq r (cs : CacheStorage) :
  method rq = "GET" → match_url (url rq) cs = None → n ∈ keys cs →
  match_url (url rq) (cache_put n rq r cs) = Some r.
Proof.
  intros Hm. unfold cache_put, keys. rewrite bool_decide_eq_true_2 by done.
  induction cs as [|[m c] cs IH]; intros Hnone Hin.
  - by apply elem_of_nil in Hin.
  - simpl in Hnone. destruct (c !! url rq) eqn:Ec; [done|].
    rewrite fmap_cons. simpl.
    case_bool_decide as Hn; simpl.
    + by rewrite lookup_insert_eq.
    + rewrite Ec. apply IH; [done|].
      rewrite fmap_cons in Hin. apply elem_of_cons in Hin as [Hin|Hin]; [|done].
      simpl in Hin. congruence.
Qed.

Lemma keys_put n rq r (cs : CacheStorage) :
  keys (cache_put n rq r cs) = keys cs.
Proof.
  unfold cache_put, keys. case_bool_decide; [|done].
  rewrite <- list_fmap_compose. apply list_fmap_ext.
  intros i [m c] _. simpl. by case_bool_decide.
Qed.

(** X18.  A same-origin GET outside /api/ that misses the caches and is
    answered by the network with a basic 200 response is passed on and
    stored; from then on the same request is answered with that response
    from the cache, whatever the network does, and the caches no longer
    change. *)
Theorem asset_served_from_cache_after_first_fetch
    origin rq r (cs : CacheStorage) :
  String.prefix origin (url rq) = true →
  includes "/api/" (url rq) = false →
  method rq = "GET" →
  caches_match rq cs = None →
  status r = 200 → type r = "basic" →
  let cs' := (on_fetch origin rq (Some r) cs).1 in
  (on_fetch origin rq (Some r) cs).2 = RespondWith (Some r)
  ∧ ∀ network, on_fetch origin rq network cs' = (cs', RespondWith (Some r)).
Proof.
  intros Ho Ha Hm Hmiss Hs Ht cs'.
  assert (on_fetch origin rq (Some r) cs
          = (cache_put CACHE_NAME rq r (caches_open CACHE_NAME cs),
             RespondWith (Some r))) as Hfirst.
  { unfold on_fetch. rewrite Ho, Ha, Hmiss. simpl.
    rewrite (bool_decide_eq_false_2 (status r ≠ 200)) by (intros H; by apply H).
    rewrite (bool_decide_eq_false_2 (type r ≠ "basic"))
      by (intros H; by apply H).
    done. }
  unfold cs'. rewrite Hfirst. simpl. split; [done|].
  intros network. unfold on_fetch. rewrite Ho, Ha. simpl.
  unfold caches_match in *. rewrite bool_decide_eq_true_2 in * by done.
  rewrite match_url_put_eq; [done|done| |apply keys_open].
  by rewrite match_url_open.
Qed.

Lemma asset_served_from_cache_after_first_fetch_witness :
  on_fetch origin {| url := "http://localhost:8080/style.css"; method := "GET" |}
    None
    (on_fetch origin
       {| url := "http://localhost:8080/style.css"; method := "GET" |}
       (Some (page "css")) two_generations).1
  = ((on_fetch origin
        {| url := "http://localhost:8080/style.css"; method := "GET" |}
        (Some (page "css")) two_generations).1,
     RespondWith (Some (page "css"))).
Proof.
  apply (asset_served_from_cache_after_first_fetch origin
           {| url := "http://localhost:8080/style.css"; method := "GET" |}
           (page "css") two_generations); reflexivity.
Defined.

(** X19.  If handling a fetch changes what the caches answer for a URL, then
    that URL is the request's, the request is same-origin and outside /api/,
    nothing was cached for it before, and the network answered with a basic
    200 response, which is what is cached now. *)
Theorem fetch_stores_only_fresh_assets origin rq network (cs : CacheStorage) u :
  match_url u (on_fetch origin rq network cs).1 ≠ match_url u cs →
  u = url rq
  ∧ String.prefix origin (url rq) = true
  ∧ includes "/api/" (url rq) = false
  ∧ method rq = "GET"
  ∧ match_url u cs = None
  ∧ ∃ r, network = Some r ∧ status r = 200 ∧ type r = "basic"
         ∧ match_url u (on_fetch origin rq network cs).1 = Some r.
Proof.
  unfold on_fetch.
  destruct (String.prefix origin (url rq)) eqn:Ho; simpl; [|done].
  destruct (includes "/api/" (url rq)) eqn:Ha.
  { destruct network; [done|]. by case_bool_decide. }
  destruct (caches_match rq cs) as [r0|] eqn:Em; [done|].
  destruct network as [r|]; [|done].
  case_bool_decide as Hs; simpl; [done|].
  case_bool_decide as Ht; simpl; [done|].
  destruct (decide (method rq = "GET")) as [Hm|Hm].
  - unfold caches_match in Em. rewrite bool_decide_eq_true_2 in Em by done.
    destruct (decide (u = url rq)) as [->|Hu].
    + intros _. repeat split; try done.
      exists r. repeat split; try done.
      apply match_url_put_eq; [done| |apply keys_open].
      by rewrite match_url_open.
    + rewrite match_url_put_ne, match_url_open by done. done.
  - unfold cache_put. rewrite bool_decide_eq_false_2 by done.
    by rewrite match_url_open.
Qed.

Lemma fetch_stores_only_fresh_assets_witness :
  ∃ r, Some (page "css") = Some r ∧ status r = 200.
Proof.
  destruct (fetch_stores_only_fresh_assets origin
              {| url := "http://localhost:8080/style.css"; method := "GET" |}
              (Some (page "css")) two_generations
              "http://localhost:8080/style.css" ltac:(discriminate))
    as (_ & _ & _ & _ & _ & r & H1 & H2 & _).
  exists r. split; assumption.
Defined.

Lemma api_free_open n (cs : CacheStorage) :
  api_free cs → api_free (caches_open n cs).
Proof.
  intros H. unfold caches_open. destruct (lookup_cache n cs); [done|].
  apply Forall_app. split; [done|]. repeat constructor.
  intros u r. simpl. by rewrite lookup_empty.
Qed.

Lemma api_free_put n rq r (cs : CacheStorage) :
  includes "/api/" (url rq) = false →
  api_free cs → api_free (cache_put n rq r cs).
Proof.
  intros Hu H. unfold cache_put. case_bool_decide; [|done].
  apply Forall_fmap. eapply Forall_impl; [exact H|].
  intros [m c] Hc. simpl in *. case_bool_decide; simpl; [|done].
  intros u r'. destruct (decide (url rq = u)) as [<-|Hne].
  - done.
  - rewrite lookup_insert_ne by done. apply Hc.
Qed.

Lemma api_free_put_all n fetched : ∀ cs : CacheStorage,
  Forall (λ p, includes "/api/" p.1 = false) fetched →
  api_free cs → api_free (put_all n fetched cs).
Proof.
  unfold put_all.
  induction fetched as [|p fetched IH]; intros cs Hf Hcs; [done|].
  apply Forall_cons in Hf as [Hp Hf]. simpl. apply IH; [done|].
  by apply api_free_put.
Qed.

Lemma fetched_urls origin network assets fetched :
  mapM (fetch_asset origin network) assets = Some fetched →
  fetched.*1 = (λ a, origin +:+ a) <$> assets
  ∧ Forall2 (λ a p, network (origin +:+ a) = Some p.2
                    ∧ fetched_ok p.2 = true) assets fetched.
Proof.
  revert fetched. induction assets as [|a assets IH]; intros fetched H.
  - simpl in H. injection H as <-. by split; [|constructor].
  - change (mapM (fetch_asset origin network) (a :: assets))
      with (y ← fetch_asset origin network a;
            k ← mapM (fetch_asset origin network) assets; mret (y :: k)) in H.
    destruct (fetch_asset origin network a) as [p|] eqn:Ea; [|done].
    destruct (mapM _ assets) as [rest|] eqn:Em; [|done].
    simpl in H. injection H as <-. destruct (IH rest eq_refl) as [H1 H2].
    unfold fetch_asset in Ea.
    destruct (network (origin +:+ a)) as [r|] eqn:Er; [|done]. simpl in Ea.
    destruct (fetched_ok r) eqn:Eok; [|done]. injection Ea as <-.
    split; [rewrite !fmap_cons; by rewrite H1|].
    constructor; [by simpl|done].
Qed.

Lemma api_free_step origin e (cs : CacheStorage) :
  Forall (λ a, includes "/api/" (origin +:+ a) = false) ASSETS_TO_CACHE →
  api_free cs → api_free (step origin e cs).
Proof.
  intros Hassets Hcs. destruct e as [network| |rq network]; simpl.
  - unfold install.
    destruct (mapM _ ASSETS_TO_CACHE) as [fetched|] eqn:Em; simpl;
      [|by apply api_free_open].
    apply api_free_put_all; [|by apply api_free_open].
    apply fetched_urls in Em as [Hurls _].
    assert (Forall (λ u, includes "/api/" u = false)
              ((λ a, origin +:+ a) <$> ASSETS_TO_CACHE)) as Hall
      by (by apply Forall_fmap).
    rewrite <- Hurls in Hall. by apply Forall_fmap in Hall.
  - rewrite activate_filter. unfold api_free in *.
    apply Forall_forall. intros p Hp.
    apply list_elem_of_filter in Hp as [_ Hp].
    by eapply Forall_forall in Hcs.
  - unfold on_fetch.
    destruct (String.prefix origin (url rq)); simpl; [|done].
    destruct (includes "/api/" (url rq)) eqn:Ha.
    { destruct network; [done|]. by case_bool_decide. }
    destruct (caches_match rq cs); [done|].
    destruct network as [r|]; [|done].
    destruct (_ || _); simpl; [done|].
    apply api_free_put; [done|]. by apply api_free_open.
Qed.

(** X20.  When no manifest URL contains /api/, after any sequence of
    install, activate and fetch events starting from empty caches, a
    same-origin API GET whose network fetch fails is answered with the
    result of [caches.match], which is always undefined: no API response is
    ever cached. *)
Theorem api_fallback_finds_nothing origin es rq :
  Forall (λ a, includes "/api/" (origin +:+ a) = false) ASSETS_TO_CACHE →
  String.prefix origin (url rq) = true →
  includes "/api/" (url rq) = true →
  method rq = "GET" →
  on_fetch origin rq None (run origin es [])
  = (run origin es [], RespondWith None).
Proof.
  intros Hassets Ho Ha Hm.
  assert (api_free (run origin es [])) as Hfree.
  { unfold run.
    assert (∀ cs : CacheStorage, api_free cs →
              api_free (foldl (λ cs e, step origin e cs) cs es)) as Hrun.
    { induction es as [|e es IH]; intros cs Hcs; [done|].
      simpl. apply IH. by apply api_free_step. }
    apply Hrun. constructor. }
  unfold on_fetch. rewrite Ho, Ha. simpl.
  rewrite bool_decide_eq_true_2 by done.
  unfold caches_match. rewrite bool_decide_eq_true_2 by done.
  destruct (match_url (url rq) (run origin es [])) as [r|] eqn:E; [|done].
  apply match_url_Some in E as (n & c & Hin & Hc).
  eapply Forall_forall in Hfree; [|exact Hin]. simpl in Hfree.
  apply Hfree in Hc. congruence.
Qed.

Lemma api_fallback_finds_nothing_witness :
  (on_fetch origin get_race None
     (run origin
        [Install (λ _, Some (page "shell")); Activate;
         Fetch {| url := "http://localhost:8080/style.css"; method := "GET" |}
               (Some (page "css"))] [])).2
  = RespondWith None.
Proof.
  rewrite (api_fallback_finds_nothing origin _ get_race); [done| |done..].
  repeat constructor.
Defined.

Lemma lookup_cache_cons n m c (cs : CacheStorage) :
  lookup_cache n ((m, c) :: cs)
  = if bool_decide (m = n) then Some c else lookup_cache n cs.
Proof.
  unfold lookup_cache. simpl.
  destruct (decide (m = n)) as [Hm|Hm].
  - by rewrite bool_decide_eq_true_2.
  - rewrite bool_decide_eq_false_2 by done.
    by destruct (list_find _ cs) as [[i p]|].
Qed.

Lemma lookup_cache_put n rq r (cs : CacheStorage) :
  method rq = "GET" →
  lookup_cache n (cache_put n rq r cs)
  = (λ c, <[url rq := r]> c) <$> lookup_cache n cs.
Proof.
  intros Hm. unfold cache_put. rewrite bool_decide_eq_true_2 by done.
  induction cs as [|[m c] cs IH]; [done|].
  rewrite fmap_cons, lookup_cache_cons. simpl.
  case_bool_decide as Hn; simpl.
  - by rewrite lookup_cache_cons, !bool_decide_eq_true_2.
  - by rewrite !lookup_cache_cons, !bool_decide_eq_false_2, IH.
Qed.

Lemma lookup_cache_put_all n fetched : ∀ cs : CacheStorage,
  lookup_cache n (put_all n fetched cs)
  = (λ c, foldl (λ c p, <[p.1 := p.2]> c) c fetched) <$> lookup_cache n cs.
Proof.
  unfold put_all. induction fetched as [|p fetched IH]; intros cs; simpl.
  - by destruct (lookup_cache n cs).
  - rewrite IH, lookup_cache_put by done. simpl.
    by destruct (lookup_cache n cs).
Qed.

Lemma inserted_absent (fetched : list (string * Response)) k : ∀ c : Cache,
  k ∉ fetched.*1 →
  foldl (λ c p, <[p.1 := p.2]> c) c fetched !! k = c !! k.
Proof.
  induction fetched as [|p fetched IH]; intros c Hk; [done|].
  rewrite fmap_cons in Hk. apply not_elem_of_cons in Hk as [Hp Hk].
  simpl. rewrite IH by done. by rewrite lookup_insert_ne.
Qed.

Lemma inserted_present (fetched : list (string * Response)) k v : ∀ c : Cache,
  NoDup fetched.*1 → (k, v) ∈ fetched →
  foldl (λ c p, <[p.1 := p.2]> c) c fetched !! k = Some v.
Proof.
  induction fetched as [|p fetched IH]; intros c Hnd Hin.
  - by apply elem_of_nil in Hin.
  - rewrite fmap_cons in Hnd. apply NoDup_cons in Hnd as [Hp Hnd].
    apply elem_of_cons in Hin as [<-|Hin]; simpl.
    + rewrite inserted_absent by done. by rewrite lookup_insert_eq.
    + by apply IH.
Qed.

Lemma lookup_cache_open n (cs : CacheStorage) :
  is_Some (lookup_cache n (caches_open n cs)).
Proof.
  unfold caches_open. destruct (lookup_cache n cs) as [c|] eqn:E.
  - rewrite E. eauto.
  - induction cs as [|[m c] cs IH]; simpl.
    + rewrite lookup_cache_cons, bool_decide_eq_true_2 by done. eauto.
    + rewrite lookup_cache_cons in E |- *.
      case_bool_decide; [done|]. by apply IH.
Qed.

(** X21.  When install succeeds, the current cache holds, for every manifest
    asset, the ok response the network gave; when it fails, some asset was
    not answered with an ok response, the current cache has only been
    opened, and what the caches answer for any URL is unchanged. *)
Theorem install_all_or_nothing origin network (cs : CacheStorage) :
  let cs' := (install origin network cs).1 in
  if (install origin network cs).2 then
    ∃ c, lookup_cache CACHE_NAME cs' = Some c
      ∧ Forall (λ a, ∃ r, network (origin +:+ a) = Some r
                         ∧ fetched_ok r = true
                         ∧ c !! (origin +:+ a) = Some r) ASSETS_TO_CACHE
  else
    Exists (λ a, ∀ r, network (origin +:+ a) = Some r → fetched_ok r = false)
           ASSETS_TO_CACHE
    ∧ cs' = caches_open CACHE_NAME cs
    ∧ ∀ u, match_url u cs' = match_url u cs.
Proof.
  unfold install.
  destruct (mapM _ ASSETS_TO_CACHE) as [fetched|] eqn:Em; simpl.
  - apply fetched_urls in Em as [Hurls Hall].
    destruct (lookup_cache_open CACHE_NAME cs) as [c0 Hc0].
    eexists. split; [by rewrite lookup_cache_put_all, Hc0|].
    assert (NoDup fetched.*1) as Hnd.
    { rewrite Hurls. apply (NoDup_fmap_2 _).
      apply (bool_decide_unpack _). vm_compute. exact I. }
    apply Forall_forall. intros a Ha.
    apply list_elem_of_lookup in Ha as [i Hi].
    destruct (Forall2_lookup_l _ _ _ _ _ Hall Hi) as (p & Hp & Hnet & Hok).
    exists p.2. split; [done|]. split; [done|].
    apply inserted_present; [done|].
    assert (p.1 = origin +:+ a) as <-.
    { assert (fetched.*1 !! i = ((λ a, origin +:+ a) <$> ASSETS_TO_CACHE) !! i)
        as Hi' by (by rewrite Hurls).
      rewrite !list_lookup_fmap, Hp, Hi in Hi'. simpl in Hi'. congruence. }
    destruct p. by eapply list_elem_of_lookup_2.
  - split; [|split; [done|intros u; apply match_url_open]].
    apply mapM_None_1 in Em. eapply Exists_impl; [exact Em|].
    intros a Ha r Hr. unfold fetch_asset in Ha. rewrite Hr in Ha. simpl in Ha.
    by destruct (fetched_ok r).
Qed.

Lemma install_all_or_nothing_witness :
  (install origin (λ _, None) two_generations).1
  = caches_open CACHE_NAME two_generations.
Proof.
  exact (proj1 (proj2 (install_all_or_nothing origin (λ _, None)
                         two_generations))).
Defined.

End WorkerMore.

(** ** The results table *)
Module PagesSpec.
Import Pages.

Lemma rows_lookup state :
  0 ≤ startIndex state →
  ∃ rows,
    tableRows state = Some rows
    ∧ Z.of_nat (length rows) = Z.max 0 (endIndex state - startIndex state)
    ∧ ∀ j, (j < length rows)%nat →
        rows !! j
        = (λ r, (startIndex state + Z.of_nat j + 1, r))
            <$> results state !! (Z.to_nat (startIndex state) + j)%nat.
Proof.
  intros Hstart. unfold tableRows.
  set (f := λ i, r ← item state i; Some (i + 1, r)).
  set (l := seqZ (startIndex state) (endIndex state - startIndex state)).
  assert (∀ j i, l !! j = Some i →
            i = startIndex state + Z.of_nat j
            ∧ f i = (λ r, (i + 1, r))
                      <$> results state !! (Z.to_nat (startIndex state) + j)%nat
            ∧ is_Some (f i)) as Hl.
  { intros j i Hj. apply lookup_seqZ in Hj as [-> Hj].
    split; [done|]. unfold f, item.
    assert ((startIndex state + Z.of_nat j <? 0) = false) as -> by lia.
    replace (Z.to_nat (startIndex state + Z.of_nat j))
      with (Z.to_nat (startIndex state) + j)%nat by lia.
    assert (is_Some (results state
                       !! (Z.to_nat (startIndex state) + j)%nat)) as [r Hr].
    { apply lookup_lt_is_Some. unfold endIndex in Hj. lia. }
    rewrite Hr. simpl. eauto. }
  destruct (mapM f l) as [rows|] eqn:Em.
  - exists rows. split; [done|].
    apply mapM_Some_1 in Em.
    pose proof (Forall2_length _ _ _ Em) as Hlen.
    split.
    + rewrite <- Hlen. unfold l. rewrite length_seqZ. lia.
    + intros j Hj.
      destruct (lookup_lt_is_Some_2 l j ltac:(lia)) as [i Hi].
      destruct (Forall2_lookup_l _ _ _ _ _ Em Hi) as (row & Hrow & Hf).
      destruct (Hl j i Hi) as (-> & Hfi & _).
      rewrite Hrow, <- Hfi. done.
  - exfalso. apply mapM_None_1 in Em. apply Exists_exists in Em
      as (i & Hi & Hnone).
    apply list_elem_of_lookup in Hi as [j Hj].
    destruct (Hl j i Hj) as (_ & _ & [x Hx]). congruence.
Qed.

Lemma render_found doc state rows :
  tableRows state = Some rows → controls_found doc = true →
  renderPage doc state = Some rows.
Proof. intros Hr Hc. unfold renderPage. rewrite Hr. simpl. by rewrite Hc. Qed.

Lemma render_missing doc state :
  controls_found doc = false → renderPage doc state = None.
Proof.
  intros Hc. unfold renderPage. destruct (tableRows state); simpl; [|done].
  by rewrite Hc.
Qed.

(** X22.  With a positive page size on a page numbered from 1: when the
    document holds the page indicator and the two navigation buttons,
    [renderPage] returns, and row j of the table, for j below the page
    size, is result number startIndex + j with position startIndex + j + 1,
    with no rows past the page size or past the end of the results; when
    one of the three is missing from the document, [renderPage] throws. *)
Theorem page_shows_its_slice doc state :
  0 < itemsPerPage state →
  1 ≤ currentPage state →
  if doc "#page-indicator" && doc "#prev-page" && doc "#next-page" then
    ∃ rows,
      renderPage doc state = Some rows
      ∧ ∀ j, rows !! j
             = if bool_decide (Z.of_nat j < itemsPerPage state)
               then (λ r, (startIndex state + Z.of_nat j + 1, r))
                      <$> results state
                          !! (Z.to_nat (startIndex state) + j)%nat
               else None
  else renderPage doc state = None.
Proof.
  intros Hipp Hcp.
  change (doc "#page-indicator" && doc "#prev-page" && doc "#next-page")
    with (controls_found doc).
  destruct (controls_found doc) eqn:Hc; [|by apply render_missing].
  assert (0 ≤ startIndex state) as Hstart by (unfold startIndex; nia).
  destruct (rows_lookup state Hstart) as (rows & Hr & Hlen & Hrows).
  exists rows. split; [by apply render_found|]. intros j.
  destruct (decide (j < length rows)%nat) as [Hj|Hj].
  - rewrite Hrows by done. rewrite bool_decide_eq_true_2; [done|].
    unfold endIndex in Hlen. lia.
  - rewrite lookup_ge_None_2 by lia. case_bool_decide; [|done].
    rewrite lookup_ge_None_2; [done|]. unfold endIndex in Hlen. lia.
Qed.

Lemma page_shows_its_slice_witness :
  renderPage all_found (goto 2 (paginationState sample 2))
  = Some [(3, finisher 3 103 1700000131000)]
  ∧ renderPage detached (goto 2 (paginationState sample 2)) = None.
Proof.
  split.
  - destruct (page_shows_its_slice all_found (goto 2 (paginationState sample 2))
                ltac:(simpl; lia) ltac:(simpl; lia)) as (rows & -> & H).
    f_equal. apply list_eq. intros j. rewrite H.
    destruct j as [|[|j]]; [reflexivity..|].
    rewrite bool_decide_eq_false_2; [reflexivity|]. simpl. lia.
  - apply (page_shows_its_slice detached (goto 2 (paginationState sample 2)));
      simpl; lia.
Defined.

Lemma ceil_div_bound len ipp idx :
  0 < ipp → 0 ≤ idx < len → idx / ipp + 1 ≤ ceil_div len ipp.
Proof.
  intros Hipp Hidx. unfold ceil_div.
  pose proof (Z.div_mod idx ipp ltac:(lia)).
  pose proof (Z.mod_pos_bound idx ipp ltac:(lia)).
  pose proof (Z.div_mod (- len) ipp ltac:(lia)).
  pose proof (Z.mod_pos_bound (- len) ipp ltac:(lia)).
  nia.
Qed.

Lemma page_not_empty len ipp cp :
  0 < ipp → 1 ≤ cp ≤ ceil_div len ipp → (cp - 1) * ipp < len.
Proof.
  intros Hipp Hcp. unfold ceil_div in Hcp.
  pose proof (Z.div_mod (- len) ipp ltac:(lia)).
  pose proof (Z.mod_pos_bound (- len) ipp ltac:(lia)).
  nia.
Qed.

Lemma findIndex_Some n l i :
  findIndex n l = Some i →
  ∃ r, l !! i = Some r ∧ Server.p_runnerNumber r = n
       ∧ ∀ j r', l !! j = Some r' → (j < i)%nat →
                 Server.p_runnerNumber r' ≠ n.
Proof.
  unfold findIndex. destruct (list_find _ l) as [[i' r]|] eqn:E; [|done].
  simpl. intros [= ->]. apply list_find_Some in E as (H1 & H2 & H3). eauto.
Qed.

Lemma search_state doc input state :
  (search doc input state).1.1 = state
  ∨ ∃ n i, input = Some n ∧ 0 < n ∧ findIndex n (results state) = Some i
           ∧ (search doc input state).1.1
             = goto (Z.of_nat i / itemsPerPage state + 1) state.
Proof.
  unfold search. destruct (doc "#runner-search"); simpl; [|by left].
  destruct input as [n|]; [|by left].
  destruct (0 <? n) eqn:En; [|by left].
  destruct (findIndex n (results state)) as [i|] eqn:E; [|by left].
  right. exists n, i. repeat split; try done; [lia|].
  by destruct (renderPage doc _).
Qed.

Lemma click_in_range searching doc c state :
  in_range state → in_range (click searching doc c state).
Proof.
  intros (Hipp & Htot & Hcp). destruct c as [| |input]; simpl.
  - unfold prev. destruct (1 <? currentPage state) eqn:E; [|done].
    repeat split; simpl; try done; lia.
  - unfold next. destruct (currentPage state <? totalPages state) eqn:E;
      [|done].
    repeat split; simpl; try done; lia.
  - destruct searching; [|done].
    destruct (search_state doc input state)
      as [->|(n & i & _ & _ & E & ->)]; [done|].
    apply findIndex_Some in E as (r & Hr & _).
    apply lookup_lt_Some in Hr.
    repeat split; simpl; try done.
    + pose proof (Z.div_pos (Z.of_nat i) (itemsPerPage state)). lia.
    + rewrite Htot. apply ceil_div_bound; lia.
Qed.

Lemma click_results searching doc c state :
  results (click searching doc c state) = results state.
Proof.
  destruct c as [| |input]; simpl.
  - unfold prev. by destruct (_ <? _).
  - unfold next. by destruct (_ <? _).
  - destruct searching; [|done].
    by destruct (search_state doc input state)
      as [->|(n & i & _ & _ & _ & ->)].
Qed.

Lemma created doc l ipp state searching :
  createPaginatedResultsTable doc l ipp = Some (state, searching) →
  state = paginationState l ipp
  ∧ controls_found doc = true ∧ searching = doc "#search-button".
Proof.
  unfold createPaginatedResultsTable.
  destruct (renderPage doc _) as [rows|] eqn:Er; simpl; [|done].
  destruct (controls_found doc) eqn:Hc;
    [|by rewrite render_missing in Er].
  destruct (doc "#prev-page" && doc "#next-page"); [|done].
  by intros [= <- <-].
Qed.

(** X23.  For a non-empty result list and a positive page size:
    [createPaginatedResultsTable] throws in its first render, with no
    click handler in place, exactly when the document lacks the page
    indicator or one of the two navigation buttons; otherwise the
    navigation handlers are in place, and it returns, with the search
    handler in place too, exactly when the document also holds the search
    button.  With the handlers in place, after any sequence of previous,
    next and search clicks the current page lies between 1 and the number
    of pages, the results are unchanged, and a render in a document that
    holds the three controls returns a page that is not empty. *)
Theorem navigation_stays_in_range doc l ipp :
  l ≠ [] → 0 < ipp →
  createPaginatedResultsTable doc l ipp
  = (if doc "#page-indicator" && doc "#prev-page" && doc "#next-page"
     then Some (paginationState l ipp, doc "#search-button") else None)
  ∧ ∀ table searching cs,
      createPaginatedResultsTable doc l ipp = Some (table, searching) →
      let state := clicks searching cs table in
      1 ≤ currentPage state ≤ totalPages state
      ∧ results state = l
      ∧ ∀ doc', controls_found doc' = true →
          ∃ rows, renderPage doc' state = Some rows ∧ rows ≠ [].
Proof.
  intros Hl Hipp.
  assert (in_range (paginationState l ipp)) as H0.
  { repeat split; simpl; try done.
    pose proof (ceil_div_bound (Z.of_nat (length l)) ipp 0 Hipp) as H.
    destruct l; [done|]. simpl length in *. rewrite Z.div_0_l in H by lia.
    lia. }
  assert (∀ s, in_range s → ∀ doc', controls_found doc' = true →
            ∃ rows, renderPage doc' s = Some rows ∧ rows ≠ []) as Hrender.
  { intros s (Hi & Htot & Hcp) doc' Hc.
    assert (0 ≤ startIndex s) as Hstart by (unfold startIndex; nia).
    destruct (rows_lookup s Hstart) as (rows & Hr & Hlen & _).
    exists rows. split; [by apply render_found|].
    pose proof (page_not_empty _ _ _ Hi
                  (eq_ind _ (λ t, 1 ≤ _ ≤ t) Hcp _ Htot)).
    intros ->. simpl in Hlen. unfold endIndex, startIndex in *. lia. }
  split.
  - change (doc "#page-indicator" && doc "#prev-page" && doc "#next-page")
      with (controls_found doc).
    unfold createPaginatedResultsTable.
    destruct (controls_found doc) eqn:Hc.
    + destruct (Hrender _ H0 doc Hc) as (rows & -> & _). simpl.
      unfold controls_found in Hc.
      apply andb_prop in Hc as [Hc ->]. by apply andb_prop in Hc as [_ ->].
    + by rewrite render_missing.
  - intros table searching cs Ht state. apply created in Ht as (-> & _ & _).
    assert (in_range state ∧ results state = l) as [Hin Hres].
    { unfold state, clicks.
      assert (in_range (paginationState l ipp)
              ∧ results (paginationState l ipp) = l) as H1 by done.
      revert H1. generalize (paginationState l ipp).
      induction cs as [|[d c] cs IH]; intros s [Hs Hr]; [done|].
      simpl. apply IH. split; [by apply click_in_range|].
      by rewrite click_results. }
    split; [apply Hin|]. split; [done|]. by apply Hrender.
Qed.

Lemma navigation_stays_in_range_witness :
  1 ≤ currentPage
        (clicks true
           [(all_found, Next); (all_found, Next); (all_found, Previous);
            (all_found, Search (Some 103))]
           (paginationState sample 2)) ≤ 2
  ∧ createPaginatedResultsTable detached sample 2 = None.
Proof.
  destruct (navigation_stays_in_range all_found sample 2
              ltac:(discriminate) ltac:(lia)) as [_ Hnav].
  destruct (navigation_stays_in_range detached sample 2
              ltac:(discriminate) ltac:(lia)) as [Hcreate _].
  split.
  - exact (proj1 (Hnav (paginationState sample 2) true
                    [(all_found, Next); (all_found, Next);
                     (all_found, Previous);
                     (all_found, Search (Some 103))] eq_refl)).
  - exact Hcreate.
Defined.

(** X24.  In a document that holds the search field and the three
    controls, with a positive page size: searching a positive runner
    number that occurs in the results goes to the page of its first
    occurrence and highlights the row where that result is rendered with
    its overall position; searching one that does not occur leaves the
    page as it is and notifies that the runner was not found. *)
Theorem search_finds_the_row doc state n :
  doc "#runner-search" = true →
  controls_found doc = true →
  0 < itemsPerPage state →
  0 < n →
  match findIndex n (results state) with
  | Some i =>
      ∃ r rows,
        results state !! i = Some r
        ∧ Server.p_runnerNumber r = n
        ∧ search doc (Some n) state
          = (goto (Z.of_nat i / itemsPerPage state + 1) state,
             Some (Z.of_nat i `mod` itemsPerPage state), None)
        ∧ renderPage doc (goto (Z.of_nat i / itemsPerPage state + 1) state)
          = Some rows
        ∧ rows !! Z.to_nat (Z.of_nat i `mod` itemsPerPage state)
          = Some (Z.of_nat i + 1, r)
  | None =>
      Forall (λ r, Server.p_runnerNumber r ≠ n) (results state)
      ∧ search doc (Some n) state = (state, None, Some (RunnerNotFound n))
  end.
Proof.
  intros Hfield Hc Hipp Hn. unfold search. rewrite Hfield. simpl.
  assert ((0 <? n) = true) as -> by lia.
  destruct (findIndex n (results state)) as [i|] eqn:E.
  - apply findIndex_Some in E as (r & Hr & Hnum & _).
    set (ipp := itemsPerPage state) in *.
    pose proof (Z.div_mod (Z.of_nat i) ipp ltac:(lia)) as Hdm.
    pose proof (Z.mod_pos_bound (Z.of_nat i) ipp ltac:(lia)) as Hmod.
    pose proof (Z.div_pos (Z.of_nat i) ipp ltac:(lia) ltac:(lia)) as Hdiv.
    set (target := goto (Z.of_nat i / ipp + 1) state).
    assert (startIndex target = Z.of_nat i / ipp * ipp) as Hs
      by (unfold startIndex, target; simpl; fold ipp; lia).
    destruct (rows_lookup target) as (rows & Hrows & Hlen & Hlook);
      [lia|].
    pose proof (lookup_lt_Some _ _ _ Hr) as Hlt.
    assert (rows !! Z.to_nat (Z.of_nat i `mod` ipp)
            = Some (Z.of_nat i + 1, r)) as Hrow.
    { rewrite Hlook.
      2:{ unfold endIndex in Hlen. rewrite Hs in Hlen.
          change (itemsPerPage target) with ipp in Hlen.
          change (results target) with (results state) in Hlen. lia. }
      rewrite Hs.
      replace (Z.to_nat (Z.of_nat i / ipp * ipp)
               + Z.to_nat (Z.of_nat i `mod` ipp))%nat with i by lia.
      change (results target) with (results state). rewrite Hr. simpl.
      f_equal. f_equal. lia. }
    exists r, rows. split; [done|]. split; [done|].
    rewrite (render_found doc target rows Hrows Hc).
    rewrite Z.rem_mod_nonneg by lia. by rewrite Hrow.
  - split; [|done]. unfold findIndex in E.
    destruct (list_find _ (results state)) eqn:E'; [done|].
    by apply list_find_None in E'.
Qed.

Lemma search_finds_the_row_witness :
  search all_found (Some 103) (paginationState sample 2)
  = (goto 2 (paginationState sample 2), Some 0, None)
  ∧ search all_found (Some 999) (paginationState sample 2)
    = (paginationState sample 2, None, Some (RunnerNotFound 999)).
Proof.
  split.
  - pose proof (search_finds_the_row all_found (paginationState sample 2) 103
                  eq_refl eq_refl ltac:(simpl; lia) ltac:(lia)) as H.
    change (findIndex _ _) with (Some 2%nat) in H.
    destruct H as (r & rows & _ & _ & Hs & _).
    rewrite Hs. reflexivity.
  - pose proof (search_finds_the_row all_found (paginationState sample 2) 999
                  eq_refl eq_refl ltac:(simpl; lia) ltac:(lia)) as H.
    change (findIndex _ _) with (@None nat) in H.
    exact (proj2 H).
Defined.

End PagesSpec.

(** ** The application *)
Module AppSpec.
Import App.

Lemma storeResult_replaces c d r :
  Offline.getStoredData c = Some d →
  Offline.data_raceId d ≠ Offline.raceId r →
  Offline.getStoredData (Offline.storeResult r c)
  = Some {| Offline.data_raceId := Offline.raceId r;
            Offline.data_results := [r] |}.
Proof.
  intros Hd Hne. unfold Offline.storeResult. rewrite Hd. simpl.
  rewrite bool_decide_eq_true_2 by done.
  apply OfflineSpec.getStoredData_storeRaceData.
Qed.

(** X25.  [recordFinish] records exactly when a race is selected, the timer
    runs and the runner number parses to a positive integer: it then appends
    the result, with race time the current time minus the timer's start
    time, to the recorded results, puts the result last in the stored queue
    of the selected race and enables the upload and clear buttons; otherwise
    results, localStorage and buttons are unchanged. *)
Theorem recordFinish_effect input now a :
  let a' := recordFinish input now a in
  let accepted :=
    truthy (currentRaceId a) && Timer.isRunning (raceTimer a)
    && match input with Some n => 0 <? n | None => false end in
  if accepted then
    ∃ n rid d before,
      input = Some n ∧ currentRaceId a = Some rid
      ∧ results a'
        = results a
          ++ [{| runnerNumber := n; finishTime := now;
                 raceTime := now - default 0 (Timer.startTime (raceTimer a)) |}]
      ∧ Offline.getStoredData (offline a') = Some d
      ∧ Offline.data_raceId d = rid
      ∧ Offline.data_results d
        = before ++ [{| Offline.raceId := rid; Offline.runnerNumber := n;
                        Offline.finishTime := now |}]
      ∧ uploadDisabled a' = false ∧ clearDisabled a' = false
  else
    results a' = results a
    ∧ Offline.localStorage (offline a') = Offline.localStorage (offline a)
    ∧ uploadDisabled a' = uploadDisabled a
    ∧ clearDisabled a' = clearDisabled a.
Proof.
  simpl. unfold recordFinish, Timer.recordFinish.
  destruct (truthy (currentRaceId a)) eqn:Et; simpl; [|done].
  destruct (Timer.isRunning (raceTimer a)) eqn:Er; simpl; [|done].
  destruct input as [n|]; [|done].
  destruct (0 <? n) eqn:En.
  - assert ((n <=? 0) = false) as -> by lia.
    destruct (currentRaceId a) as [rid|] eqn:Ec; [|done]. simpl.
    destruct (OfflineSpec.localStorage_storeResult
                {| Offline.raceId := rid; Offline.runnerNumber := n;
                   Offline.finishTime := now |} (offline a))
      as (d & Hls & Hrid & before & Hres).
    exists n, rid, d, before. repeat split; try done.
    unfold Offline.getStoredData.
    change (Offline.localStorage (Offline.showNotification ?m ?c))
      with (Offline.localStorage c).
    rewrite Hls.
    by rewrite lookup_insert_eq.
  - assert ((n <=? 0) = true) as -> by lia. done.
Qed.

Lemma queued_app rid l l' : queued rid (l ++ l') = queued rid l ++ queued rid l'.
Proof. apply fmap_app. Qed.

Lemma recordFinish_in_step input now a :
  in_step a → in_step (recordFinish input now a).
Proof.
  intros (rid & Hc & Hrid & Hq). unfold recordFinish, Timer.recordFinish.
  assert (in_step a) as Ha by (exists rid; done).
  rewrite Hc. simpl.
  assert ((rid =? 0) = false) as -> by lia. simpl.
  destruct (Timer.isRunning (raceTimer a)); simpl; [|done].
  destruct input as [n|]; [|done].
  destruct (n <=? 0); [done|].
  exists rid. cbn [currentRaceId results offline showNotification default].
  split; [done|]. split; [done|].
  change (Offline.getStoredData (Offline.showNotification ?m ?c))
    with (Offline.getStoredData c).
  set (r := {| Offline.raceId := rid; Offline.runnerNumber := n;
               Offline.finishTime := now |}).
  destruct (results a) as [|f l] eqn:El; cbn [app].
  - destruct (Offline.getStoredData (offline a)) as [d|] eqn:Ed.
    + rewrite (storeResult_replaces _ d r Ed) by (by apply Hq). done.
    + by rewrite OfflineMore.storeResult_first.
  - rewrite (OfflineMore.storeResult_same_race _ _ r Hq) by done. simpl.
    unfold queued. by rewrite !fmap_app.
Qed.

Lemma cleared_in_step a : in_step a → in_step (cleared a).
Proof.
  intros (rid & Hc & Hrid & _). exists rid. simpl.
  split; [done|]. split; [done|]. intros d.
  unfold Offline.getStoredData. simpl. by rewrite lookup_delete_eq.
Qed.

(** X26.  If the recorded results and the stored queue agree (the queue
    holds the recorded results of the selected race, or nothing of that race
    when none is recorded), they still agree after [recordFinish], after
    [clearResults] whatever the confirm dialog answers, and after
    [uploadResults] whatever the network does. *)
Theorem results_and_queue_in_step a :
  in_step a →
  (∀ input now, in_step (recordFinish input now a))
  ∧ (∀ confirmed, in_step (clearResults confirmed a))
  ∧ (∀ net controlled now srv,
       in_step (uploadResults net controlled now a srv).1).
Proof.
  intros Ha. split; [|split].
  - intros. by apply recordFinish_in_step.
  - intros confirmed. unfold clearResults.
    destruct (results a) eqn:El; [done|].
    destruct confirmed; [|done]. by apply cleared_in_step.
  - intros net controlled now srv. unfold uploadResults.
    destruct (truthy (currentRaceId a)); simpl; [|done].
    destruct (results a) eqn:El; [done|].
    destruct (Offline.isOnline (offline a)); simpl; [|done].
    destruct (Sync.transmit _ _ _ _) as [srv' [st|]]; simpl; [|done].
    destruct (Offline.ok st); simpl; [|done]. by apply cleared_in_step.
Qed.

Lemma results_and_queue_in_step_witness :
  in_step recorded ∧ in_step (clearResults true recorded).
Proof.
  assert (in_step ready) as H.
  { exists 1. split; [done|]. split; [done|]. intros d Hd. discriminate Hd. }
  destruct (results_and_queue_in_step ready H) as (Hr & _).
  pose proof (Hr (Some 101) 1700000125000) as H1.
  split; [exact H1|].
  exact (proj1 (proj2 (results_and_queue_in_step recorded H1)) true).
Defined.

Lemma entries_queued rid l :
  Sync.entry_of <$> queued rid l = entry_of <$> l.
Proof. unfold queued. rewrite <- list_fmap_compose. done. Qed.

Lemma queued_valid rid l :
  Forall (λ r, runnerNumber r ≠ 0 ∧ finishTime r ≠ 0) l →
  Forall (λ r, Offline.runnerNumber r ≠ 0 ∧ Offline.finishTime r ≠ 0)
    (queued rid l).
Proof. intros H. unfold queued. by apply Forall_fmap. Qed.

Lemma queued_nil rid l : l ≠ [] → queued rid l ≠ [].
Proof. by destruct l. Qed.

Lemma upload_delivered controlled now a rid srv :
  Server.transaction srv = None →
  currentRaceId a = Some rid → rid ≠ 0 → results a ≠ [] →
  Forall (λ r, runnerNumber r ≠ 0 ∧ finishTime r ≠ 0) (results a) →
  Offline.isOnline (offline a) = true →
  uploadResults Sync.Delivered controlled now a srv
  = (showNotification "Results uploaded successfully" (cleared a),
     {| Server.committed :=
          Server.insert_all rid (Some (Offline.deviceId (offline a))) now
            (Sync.entry_of <$> queued rid (results a)) (Server.view srv);
        Server.transaction := None |}).
Proof.
  intros Hnone Hc Hrid Hne Hvalid Hon. unfold uploadResults.
  rewrite Hc, Hon. cbn [truthy negb].
  assert ((rid =? 0) = false) as -> by lia. cbn [negb].
  destruct (results a) as [|f l] eqn:El; [done|].
  pose proof (SyncMore.upload_accepted
                {| Offline.up_raceId := rid;
                   Offline.up_results := queued rid (f :: l);
                   Offline.up_deviceId := Offline.deviceId (offline a) |}
                now srv Hnone (queued_valid rid _ Hvalid)) as Hp.
  unfold Sync.request_of in Hp. cbn [Offline.up_raceId Offline.up_results
    Offline.up_deviceId] in Hp.
  unfold Sync.transmit, request_of. rewrite Hc, El. cbn [default].
  change (id rid) with rid.
  rewrite <- (entries_queued rid (f :: l)). rewrite Hp. done.
Qed.

(** X27.  The sync button empties the stored queue but not the application's
    recorded results: on a server whose connection has no transaction
    pending, when valid recorded results are sent by the sync button and
    then by the upload button, both delivered, the server stores their rows
    twice. *)
Theorem sync_then_upload_stores_twice controlled now now' a rid srv :
  Server.transaction srv = None →
  currentRaceId a = Some rid →
  in_step a →
  results a ≠ [] →
  Forall (λ r, runnerNumber r ≠ 0 ∧ finishTime r ≠ 0) (results a) →
  Offline.isOnline (offline a) = true →
  let synced := syncNow Sync.Delivered controlled now a srv in
  let uploaded :=
    uploadResults Sync.Delivered controlled now' synced.1 synced.2 in
  Offline.getStoredData (offline synced.1) = None
  ∧ results synced.1 = results a
  ∧ results uploaded.1 = []
  ∧ Server.results (Server.view uploaded.2)
    = Server.results (Server.view srv)
      ++ Sync.rows_for (Server.results_seq (Server.view srv)) rid
           (Some (Offline.deviceId (offline a))) now (queued rid (results a))
      ++ Sync.rows_for (Server.results_seq (Server.view synced.2)) rid
           (Some (Offline.deviceId (offline a))) now'
           (queued rid (results a)).
Proof.
  intros Hnone Hc (rid' & Hc' & Hrid & Hq) Hne Hvalid Hon synced uploaded.
  assert (rid' = rid) as -> by congruence.
  assert (Offline.getStoredData (offline a)
          = Some {| Offline.data_raceId := rid;
                    Offline.data_results := queued rid (results a) |}) as Hd.
  { by destruct (results a). }
  assert (synced
          = ({| currentRaceId := currentRaceId a;
                raceTimer := raceTimer a;
                results := results a;
                offline :=
                  Offline.showNotification "Results synchronized successfully"
                    (Offline.clearResults (offline a));
                uploadDisabled := uploadDisabled a;
                clearDisabled := clearDisabled a |},
             {| Server.committed :=
                  Server.insert_all rid
                    (Some (Offline.deviceId (offline a))) now
                    (Sync.entry_of <$> queued rid (results a))
                    (Server.view srv);
                Server.transaction := None |})) as Hs.
  { unfold synced, syncNow.
    by rewrite (SyncMore.round_delivered controlled now (offline a) _ srv
                  Hnone Hon Hd (queued_nil rid _ Hne)
                  (queued_valid rid _ Hvalid)). }
  unfold uploaded. rewrite Hs. cbn [fst snd].
  erewrite upload_delivered;
    [|reflexivity|exact Hc|exact Hrid|exact Hne|exact Hvalid|exact Hon].
  cbn [fst snd results offline showNotification cleared].
  split; [unfold Offline.getStoredData; simpl; by rewrite lookup_delete_eq|].
  split; [done|]. split; [done|].
  unfold Server.view at 1. cbn [Server.transaction Server.committed default].
  rewrite SyncSpec.insert_all_rows.
  unfold Server.view at 1 3. cbn [Server.transaction Server.committed default].
  rewrite SyncSpec.insert_all_rows. by rewrite <- app_assoc.
Qed.

Lemma sync_then_upload_stores_twice_witness :
  length (Server.results (Server.view
    (uploadResults Sync.Delivered true 1700000300000
       (syncNow Sync.Delivered true 1700000200000 recorded Server.one_race).1
       (syncNow Sync.Delivered true 1700000200000 recorded Server.one_race).2
    ).2)) = 2%nat.
Proof.
  assert (in_step recorded) as H.
  { exists 1. split; [done|]. split; [done|]. reflexivity. }
  pose proof (sync_then_upload_stores_twice true 1700000200000 1700000300000
                recorded 1 Server.one_race eq_refl eq_refl H
                ltac:(discriminate)
                ltac:(repeat constructor; discriminate) eq_refl)
    as (_ & _ & _ & Hr).
  rewrite Hr. reflexivity.
Defined.

End AppSpec.
